(** * Market time-series cache, indicator engine and SMA reversal detector

    A shallow embedding of the price-series subsystem of the repository:

    - [find_sma_reversals] of [zz_Legacy/MarketMonitorLivev6.py]
      (the reversal detector), and
    - [load_cached_data], [save_cached_data], [get_stock_data],
      [calculate_indicators] and [determine_trend_state] of
      [python/SectorIndexv12.py] (cache, fetcher, indicators, classifier).

    Python floats are modelled by [Float.fl]: NaN, the two infinities, or a
    finite value, the latter idealised as an exact rational (no rounding and
    no overflow; zero is unsigned). *)

From Stdlib Require Import ZArith QArith Qminmax List Lia Lqa Bool Ascii String.
From stdpp Require Import base option list gmap strings.
Import ListNotations.

Local Open Scope Z_scope.

(* ===================================================================== *)
(** ** Floats *)
(* ===================================================================== *)

Module Float.

Inductive fl : Type :=
| NaN
| NInf
| Fin (q : Q)
| PInf.

Definition Qltb (x y : Q) : bool :=
  match Qcompare x y with Lt => true | _ => false end.

Definition isnan (x : fl) : bool :=
  match x with NaN => true | _ => false end.

Definition notna (x : fl) : bool := negb (isnan x).

(** [flt a b] is Python's [a < b]: every comparison with NaN is False. *)
Definition flt (a b : fl) : bool :=
  match a, b with
  | NaN, _ | _, NaN => false
  | NInf, NInf => false
  | NInf, _ => true
  | Fin _, NInf => false
  | Fin x, Fin y => Qltb x y
  | Fin _, PInf => true
  | PInf, _ => false
  end.

(** [fle a b] is [a <= b]. *)
Definition fle (a b : fl) : bool :=
  match a, b with
  | NaN, _ | _, NaN => false
  | NInf, _ => true
  | Fin _, NInf => false
  | Fin x, Fin y => Qle_bool x y
  | Fin _, PInf => true
  | PInf, PInf => true
  | PInf, _ => false
  end.

Definition fgt (a b : fl) : bool := flt b a.
Definition fge (a b : fl) : bool := fle b a.

(** [feq a b] is [a == b]. *)
Definition feq (a b : fl) : bool :=
  match a, b with
  | Fin x, Fin y => Qeq_bool x y
  | PInf, PInf => true
  | NInf, NInf => true
  | _, _ => false
  end.

Definition fneg (a : fl) : fl :=
  match a with
  | NaN => NaN
  | NInf => PInf
  | Fin q => Fin (- q)
  | PInf => NInf
  end.

Definition fadd (a b : fl) : fl :=
  match a, b with
  | NaN, _ | _, NaN => NaN
  | PInf, NInf | NInf, PInf => NaN
  | PInf, _ | _, PInf => PInf
  | NInf, _ | _, NInf => NInf
  | Fin x, Fin y => Fin (x + y)
  end.

Definition fsub (a b : fl) : fl := fadd a (fneg b).

(** The infinity of the sign of [c] ([Eq]: no sign, hence NaN). *)
Definition inf_of (c : comparison) : fl :=
  match c with Lt => NInf | Eq => NaN | Gt => PInf end.

Definition sgn (a : fl) : comparison :=
  match a with
  | NaN => Eq
  | NInf => Lt
  | Fin q => Qcompare q 0
  | PInf => Gt
  end.

Definition sgn_mul (c d : comparison) : comparison :=
  match c, d with
  | Eq, _ | _, Eq => Eq
  | Lt, Lt | Gt, Gt => Gt
  | Lt, Gt | Gt, Lt => Lt
  end.

Definition fmul (a b : fl) : fl :=
  match a, b with
  | NaN, _ | _, NaN => NaN
  | Fin x, Fin y => Fin (x * y)
  | _, _ => inf_of (sgn_mul (sgn a) (sgn b))
  end.

(** Division: [x / 0] is an infinity of the sign of [x] (the zero divisor
    counts as [+0]), [0 / 0] and [inf / inf] are NaN. *)
Definition fdiv (a b : fl) : fl :=
  match a, b with
  | NaN, _ | _, NaN => NaN
  | Fin x, Fin y =>
      if Qeq_bool y 0 then inf_of (Qcompare x 0) else Fin (x / y)
  | Fin _, _ => Fin 0
  | _, Fin y => inf_of (sgn_mul (sgn a) (if Qltb y 0 then Lt else Gt))
  | _, _ => NaN
  end.

Definition of_Z (z : Z) : fl := Fin (inject_Z z).

End Float.

Import Float.

(* ===================================================================== *)
(** ** Reversal detector ([MarketMonitorLivev6.py]) *)
(* ===================================================================== *)

Module Reversal.

(** One row of [df[[raw_col, sma_col]]]: the index label and the two
    columns the detector reads. *)
Record row : Type := { date : Z; raw : fl; sma : fl }.

Definition frame : Type := list row.

Inductive kind : Type := peak | trough.

(** What [df.loc[label, col]] returns: the scalar when the label occurs
    once in the index, the sub-column of all matching rows otherwise. *)
Inductive cell : Type :=
| Scalar (v : fl)
| Column (vs : list fl).

Definition event : Type := (Z * cell * kind)%type.

Definition ev_date (e : event) : Z := fst (fst e).
Definition ev_price (e : event) : cell := snd (fst e).
Definition ev_kind (e : event) : kind := snd e.

Definition SMA_REVERSAL_THRESHOLD : fl := Fin (1 # 1000).

(** [df[[raw_col, sma_col]].dropna()] *)
Definition dropna (df : frame) : frame :=
  List.filter (fun r => notna (raw r) && notna (sma r)) df.

(** [df.loc[d, raw_col]] *)
Definition loc_raw (df : frame) (d : Z) : cell :=
  match List.filter (fun r => date r =? d) df with
  | [r] => Scalar (raw r)
  | rs => Column (map raw rs)
  end.

(** The loop-carried variables of [find_sma_reversals]. *)
Record state : Type := {
  trend : Z;
  last_sma_val : fl;
  last_date : Z;
  reversals : list event
}.

(** One iteration of [for date, row in valid_data.iterrows()];
    [price_at d] stands for [df.loc[d, raw_col]]. *)
Definition step (price_at : Z -> cell) (threshold : fl)
    (st : state) (r : row) : state :=
  let curr_sma := sma r in
  if trend st =? 0 then
    if fge curr_sma (fmul (last_sma_val st) (fadd (Fin 1) threshold)) then
      {| trend := 1; last_sma_val := curr_sma; last_date := date r;
         reversals := reversals st |}
    else if fle curr_sma (fmul (last_sma_val st) (fsub (Fin 1) threshold)) then
      {| trend := -1; last_sma_val := curr_sma; last_date := date r;
         reversals := reversals st |}
    else st
  else if trend st =? 1 then
    if fgt curr_sma (last_sma_val st) then
      {| trend := trend st; last_sma_val := curr_sma; last_date := date r;
         reversals := reversals st |}
    else if flt curr_sma (fmul (last_sma_val st) (fsub (Fin 1) threshold)) then
      {| trend := -1; last_sma_val := curr_sma; last_date := date r;
         reversals :=
           reversals st ++ [(last_date st, price_at (last_date st), peak)] |}
    else st
  else if trend st =? -1 then
    if flt curr_sma (last_sma_val st) then
      {| trend := trend st; last_sma_val := curr_sma; last_date := date r;
         reversals := reversals st |}
    else if fgt curr_sma (fmul (last_sma_val st) (fadd (Fin 1) threshold)) then
      {| trend := 1; last_sma_val := curr_sma; last_date := date r;
         reversals :=
           reversals st ++ [(last_date st, price_at (last_date st), trough)] |}
    else st
  else st.

(** State on entry to the loop, anchored at the first valid row. *)
Definition init (r0 : row) : state :=
  {| trend := 0; last_sma_val := sma r0; last_date := date r0;
     reversals := [] |}.

Definition scan (price_at : Z -> cell) (threshold : fl)
    (st : state) (rows : list row) : state :=
  fold_left (step price_at threshold) rows st.

Definition find_sma_reversals (df : frame) (threshold : fl) : list event :=
  let valid_data := dropna df in
  match valid_data with
  | [] => []
  | r0 :: _ => reversals (scan (loc_raw df) threshold (init r0) valid_data)
  end.

(** No two neighbouring events of the same kind. *)
Fixpoint alternating (es : list event) : bool :=
  match es with
  | e1 :: ((e2 :: _) as tl) =>
      match ev_kind e1, ev_kind e2 with
      | peak, trough | trough, peak => alternating tl
      | _, _ => false
      end
  | _ => true
  end.

(** The last event and the trend agree: after a peak the detector is
    falling, after a trough it is rising. *)
Definition coherent (st : state) : Prop :=
  alternating (reversals st) = true ∧
  match last (reversals st) with
  | None => True
  | Some e => match ev_kind e with
              | peak => trend st = -1
              | trough => trend st = 1
              end
  end.

End Reversal.

(* ===================================================================== *)
(** ** Data frames ([pandas]) as used by [SectorIndexv12.py] *)
(* ===================================================================== *)

Module Frame.

(** A column is a list of floats; a frame is a [DatetimeIndex] (seconds
    since the epoch) and a dictionary of named columns, each as long as
    the index. *)
Record DataFrame : Type := {
  index : list Z;
  columns : gmap string (list fl)
}.

(** [pd.DataFrame()] *)
Definition empty_frame : DataFrame := {| index := []; columns := ∅ |}.

(** [len(df)] *)
Definition len (df : DataFrame) : nat := length (index df).

(** [df.empty]: some axis has length zero. *)
Definition df_empty (df : DataFrame) : bool :=
  (len df =? 0)%nat || bool_decide (columns df = ∅).

Definition well_formed (df : DataFrame) : Prop :=
  ∀ name col, columns df !! name = Some col → length col = len df.

(** [df[name] = col] on a copy of [df]. *)
Definition set_column (name : string) (col : list fl) (df : DataFrame)
    : DataFrame :=
  {| index := index df; columns := <[name := col]> (columns df) |}.

(** [df[name] = v] for a scalar [v]. *)
Definition set_scalar (name : string) (v : fl) (df : DataFrame) : DataFrame :=
  set_column name (repeat v (len df)) df.

(** [col.shift(n)] *)
Definition shift (n : nat) (col : list fl) : list fl :=
  take (length col) (repeat NaN n ++ col).

(** [col.diff()] *)
Definition diff (col : list fl) : list fl :=
  zip_with fsub col (shift 1 col).

Fixpoint ffill_from (prev : fl) (col : list fl) : list fl :=
  match col with
  | [] => []
  | x :: tl =>
      let y := if isnan x then prev else x in
      y :: ffill_from y tl
  end.

(** [col.ffill()] *)
Definition ffill (col : list fl) : list fl := ffill_from NaN col.

(** [col.fillna(v)] *)
Definition fillna (v : fl) (col : list fl) : list fl :=
  map (fun x => if isnan x then v else x) col.

(** [col.replace(a, b)] *)
Definition replace (a b : fl) (col : list fl) : list fl :=
  map (fun x => if feq x a then b else x) col.

(** [col.clip(lower=lo)] and [col.clip(upper=hi)] *)
Definition clip_lower (lo : fl) (col : list fl) : list fl :=
  map (fun x => if flt x lo then lo else x) col.

Definition clip_upper (hi : fl) (col : list fl) : list fl :=
  map (fun x => if fgt x hi then hi else x) col.

(** [col.pct_change(n)]: pad the gaps (the default [fill_method='pad'] of
    pandas 1 and 2), then [x / x.shift(n) - 1]. *)
Definition pct_change (n : nat) (col : list fl) : list fl :=
  let data := ffill col in
  zip_with (fun x y => fsub (fdiv x y) (Fin 1)) data (shift n data).

Definition fsum (vals : list fl) : fl := fold_left fadd vals (Fin 0).

(** The trailing window of [w] rows ending at row [i]. *)
Definition window (w : nat) (col : list fl) (i : nat) : list fl :=
  drop (S i - w) (take (S i) col).

(** [col.rolling(w, min_periods=m).mean()]: the mean of the observations
    in the window, NaN when there are fewer than [m] of them. *)
Definition rolling_mean (w m : nat) (col : list fl) : list fl :=
  map (fun i =>
         let obs := List.filter notna (window w col i) in
         if (length obs <? m)%nat then NaN
         else fdiv (fsum obs) (of_Z (Z.of_nat (length obs))))
      (seq 0 (length col)).

(** [col.notna().any()] *)
Definition any_notna (col : list fl) : bool := existsb notna col.

Fixpoint lookup_label (idx : list Z) (col : list fl) (d : Z) : fl :=
  match idx, col with
  | t :: idx', v :: col' => if t =? d then v else lookup_label idx' col' d
  | _, _ => NaN
  end.

(** [Series(col, index=idx).reindex(target)]: a copy of the series when
    [target] is its own index; otherwise it raises (here [None]) when
    [idx] has duplicate labels, and labels missing from [idx] give NaN.
    (A series has one value per label; [resize] only says so.) *)
Definition reindex (idx : list Z) (col : list fl) (target : list Z)
    : option (list fl) :=
  if bool_decide (target = idx) then Some (resize (length idx) NaN col)
  else if bool_decide (NoDup idx)
       then Some (map (lookup_label idx col) target)
       else None.

(** [df.ffill()] *)
Definition ffill_frame (df : DataFrame) : DataFrame :=
  {| index := index df; columns := ffill <$> columns df |}.

(** Rows of [df] holding at least one observation. *)
Definition row_mask (df : DataFrame) : list bool :=
  map_fold (fun _ col acc => zip_with orb (map notna col) acc)
           (repeat false (len df)) (columns df).

Definition select {A} (mask : list bool) (l : list A) : list A :=
  map snd (List.filter fst (zip mask l)).

(** [df.dropna(how='all')] *)
Definition dropna_all (df : DataFrame) : DataFrame :=
  let mask := row_mask df in
  {| index := select mask (index df);
     columns := select mask <$> columns df |}.

(** [df.iloc[-1][name]]: [None] when the lookup raises. *)
Definition cur (df : DataFrame) (name : string) : option fl :=
  col ← columns df !! name; last col.

End Frame.

Import Frame.

(* ===================================================================== *)
(** ** Cache, fetcher, indicators and classifier ([SectorIndexv12.py]) *)
(* ===================================================================== *)

Module Sector.

Definition PLOT_SMA_PERIOD : nat := 50.
Definition SMA_KEY : string := "SMA_50".
Definition CACHE_DIR : string := "./cache".
Definition CACHE_HOURS : Q := 24 * 7.
Definition MIN_BARS_REQUIRED : nat := 200.
Definition EXPECTED_MIN_BARS_5Y : nat := 1100.

(** *** The world the script runs in *)

(** Content of a file of the cache directory: either something on which
    [pickle.load] or the unpacking of its result raises, or a pickled pair
    [(df, fetch_time)] (whose [df] may be [None]). Pickling is taken to be
    lossless. Times are seconds on the clock [datetime.now()] reads. *)
Inductive file : Type :=
| Garbage
| Pickled (df : option DataFrame) (fetch_time : Z).

(** A reply of the chart endpoint to one [requests.get]. [Chart ts quote
    adjclose] is a body in which [result['timestamp']] is [ts],
    [result['indicators']['quote'][0]] is the dictionary [quote], and
    [adjclose] is the array under [indicators.adjclose[0].adjclose] when
    both levels are there. *)
Inductive response : Type :=
| TransportError
| HttpError
| BadBody
| Chart (timestamp : list Z) (quote : gmap string (list fl))
        (adjclose : option (list fl)).

(** The world: the files by path, the clock, the sleeps taken and the
    number of requests made so far, and the paths at which a file can be
    written: [writable path] tells whether [open(path, 'wb')] succeeds
    (the directory is there and may be written to). A path is taken to
    name the file of that very string. *)
Record world : Type := {
  fs : gmap string file;
  now : Z;
  slept : list Z;
  requests : nat;
  writable : string → bool
}.

(** *** Computations that read and write the world and may raise *)

Inductive outcome (A : Type) : Type :=
| Ok (a : A)
| Raised.
Arguments Ok {A} a.
Arguments Raised {A}.

Definition M (A : Type) : Type := world → outcome A * world.

#[global] Instance M_ret : MRet M := fun A a w => (Ok a, w).

#[global] Instance M_bind : MBind M := fun A B k c w =>
  match c w with
  | (Ok a, w') => k a w'
  | (Raised, w') => (Raised, w')
  end.

Definition raise {A} : M A := fun w => (Raised, w).

(** [try: body  except Exception: handler] *)
Definition try_except {A} (body : M A) (handler : M A) : M A :=
  fun w => match body w with
           | (Ok a, w') => (Ok a, w')
           | (Raised, w') => handler w'
           end.

(** [time.sleep(d)] *)
Definition sleep (d : Z) : M unit :=
  fun w => (Ok tt, {| fs := fs w; now := now w + d;
                      slept := slept w ++ [d]; requests := requests w;
                      writable := writable w |}).

(** The world after one more request. *)
Definition asked (w : world) : world :=
  {| fs := fs w; now := now w; slept := slept w;
     requests := S (requests w); writable := writable w |}.

(** [requests.get(...)] followed by [r.raise_for_status()] and [r.json()]
    and the walk to [result]: the [requests w]-th reply of the network. *)
Definition fetch_chart (net : nat → response)
    : M (list Z * gmap string (list fl) * option (list fl)) :=
  fun w =>
    match net (requests w) with
    | Chart ts quote adjclose => (Ok (ts, quote, adjclose), asked w)
    | _ => (Raised, asked w)
    end.

(** *** Cache *)

(** [os.path.join(CACHE_DIR, f"{ticker}.pkl")] *)
Definition cache_path (ticker : string) : string :=
  match ticker with
  | String "/"%char _ => ticker +:+ ".pkl"
  | _ => CACHE_DIR +:+ "/" +:+ ticker +:+ ".pkl"
  end.

(** [t.date()] as a day number. *)
Definition date_of (t : Z) : Z := t / 86400.

Definition index_min (idx : list Z) : option Z :=
  match idx with [] => None | t :: tl => Some (fold_left Z.min tl t) end.

Definition index_max (idx : list Z) : option Z :=
  match idx with [] => None | t :: tl => Some (fold_left Z.max tl t) end.

Definition load_cached_data (files : gmap string file) (clock : Z)
    (ticker : string) : option DataFrame :=
  let path := cache_path ticker in
  match files !! path with
  | None => None
  | Some Garbage => None
  | Some (Pickled odf fetch_time) =>
      let age_hours := (inject_Z (clock - fetch_time) / 3600)%Q in
      if Qltb CACHE_HOURS age_hours then None
      else
        match odf with
        | None => None
        | Some df =>
            if df_empty df || (len df <? MIN_BARS_REQUIRED)%nat then None
            else
              match index_min (index df), index_max (index df) with
              | Some first_date, Some last_date =>
                  let years :=
                    (inject_Z (date_of clock - date_of first_date)
                     / (36525 # 100))%Q in
                  if Qltb years (47 # 10)
                     || (len df <? EXPECTED_MIN_BARS_5Y)%nat then None
                  else if date_of clock - date_of last_date >? 7 then None
                  else Some df
              | _, _ => None
              end
        end
  end.

(** [save_cached_data(ticker, df)]; it raises, leaving the files alone,
    when the file cannot be opened for writing. *)
Definition save_cached_data (ticker : string) (df : DataFrame) : M unit :=
  fun w =>
    if df_empty df then (Ok tt, w)
    else
      let path := cache_path ticker in
      if writable w path then
        (Ok tt, {| fs := <[path := Pickled (Some df) (now w)]> (fs w);
                   now := now w; slept := slept w; requests := requests w;
                   writable := writable w |})
      else (Raised, w).

(** *** Fetcher *)

(** A column handed to the [pd.DataFrame] constructor with an index of
    [n] labels: [None] (an absent array) is broadcast, giving a column of
    [None], which holds no observation and is written as NaN here; a list
    of one element is broadcast too; any other list must be as long as
    the index, or the constructor raises. *)
Definition as_column (n : nat) (c : option (list fl)) : option (list fl) :=
  match c with
  | None => Some (repeat NaN n)
  | Some l =>
      if (length l =? n)%nat then Some l
      else match l with
           | [x] => Some (repeat x n)
           | _ => None
           end
  end.

(** The seconds either side of the epoch that a [datetime64[ns]] label
    can hold: [pd.to_datetime(ts, unit='s')] raises beyond them. *)
Definition TS_LIMIT : Z := 9223372036.

Definition in_datetime_range (t : Z) : bool :=
  (- TS_LIMIT <=? t) && (t <=? TS_LIMIT).

(** [pd.DataFrame({...}, index=pd.to_datetime(ts, unit='s'))] *)
Definition build_frame (ts : list Z) (quote : gmap string (list fl))
    (adj : list fl) : option DataFrame :=
  let n := length ts in
  if forallb in_datetime_range ts then
    o ← as_column n (quote !! "open");
    h ← as_column n (quote !! "high");
    l ← as_column n (quote !! "low");
    c ← as_column n (if (length adj =? n)%nat then Some adj
                     else quote !! "close");
    v ← as_column n (quote !! "volume");
    Some {| index := ts;
            columns := <["Open" := o]> (<["High" := h]> (<["Low" := l]>
                       (<["Close" := c]> (<["Volume" := v]> ∅)))) |}
  else None.

(** The frame that the body of the [try] builds from a reply; [None]
    when it raises before it has one. *)
Definition frame_of_reply (r : response) : option DataFrame :=
  match r with
  | Chart ts quote adjclose =>
      let adj := default (default [] (quote !! "close")) adjclose in
      df0 ← build_frame ts quote adj;
      Some (dropna_all (ffill_frame df0))
  | _ => None
  end.

(** The body of the [try] of one attempt. *)
Definition attempt_body (net : nat → response) (ticker : string)
    : M DataFrame :=
  '(ts, quote, adjclose) ← fetch_chart net;
  let adj := default (default [] (quote !! "close")) adjclose in
  match build_frame ts quote adj with
  | None => raise
  | Some df0 =>
      let df := dropna_all (ffill_frame df0) in
      save_cached_data ticker df;;
      mret df
  end.

(** The replies on which the body of the [try] raises in world [w]: no
    body, a body from which the frame cannot be built, or a frame with
    rows and columns that cannot be stored. *)
Definition fails (ticker : string) (w : world) (r : response) : bool :=
  match frame_of_reply r with
  | None => true
  | Some df => negb (df_empty df) && negb (writable w (cache_path ticker))
  end.

(** The sleep after failed attempt [attempt]. *)
Definition delay (attempt : Z) : Z := 4 + attempt * 3.

(** [for attempt in todo: try: ... return df  except: sleep], then the
    code after the loop. *)
Fixpoint attempts (net : nat → response) (ticker : string) (todo : list Z)
    : M DataFrame :=
  match todo with
  | [] => mret empty_frame
  | attempt :: rest =>
      try_except (attempt_body net ticker)
                 (sleep (delay attempt);; attempts net ticker rest)
  end.

Definition get_stock_data (net : nat → response) (ticker : string)
    (force_refresh : bool) : M DataFrame :=
  fun w =>
    match (if force_refresh then None
           else load_cached_data (fs w) (now w) ticker) with
    | Some df => (Ok df, w)
    | None => attempts net ticker [1; 2; 3; 4; 5] w
    end.

(** *** Indicators *)

(** The benchmark-relative columns, when the benchmark can be used:
    [None] stands for falling through to the neutral zeros (the [if]
    fails, or the [try] raised). *)
Definition relative_columns (df : DataFrame) (close ret_col : list fl)
    (spy_df : option DataFrame) : option DataFrame :=
  match spy_df with
  | None => None
  | Some spy =>
      if df_empty spy then None
      else
        spy_close ← columns spy !! "Close";
        aligned0 ← reindex (index spy) spy_close (index df);
        let aligned := ffill aligned0 in
        if any_notna aligned then
          let rel_line := zip_with fdiv close aligned in
          let alpha :=
            zip_with fsub ret_col
              (map (fun x => fmul x (Fin 100)) (pct_change 1 aligned)) in
          let rel_perf :=
            map (fun x => fmul x (Fin 100)) (pct_change 63 rel_line) in
          Some (set_column "Alpha" (fillna (Fin 0) alpha)
                 (set_column "Rel_Perf_3M" rel_perf
                   (set_column "Rel_Line" rel_line df)))
        else None
  end.

(** [gain] and [loss]: the 14-row means of the rises and of the falls. *)
Definition avg_gain (close : list fl) : list fl :=
  rolling_mean 14 14 (clip_lower (Fin 0) (diff close)).

Definition avg_loss (close : list fl) : list fl :=
  rolling_mean 14 14 (map fneg (clip_upper (Fin 0) (diff close))).

(** [rs = gain / loss.replace(0, np.nan)] *)
Definition rel_strength (close : list fl) : list fl :=
  zip_with fdiv (avg_gain close) (replace (Fin 0) NaN (avg_loss close)).

(** [100 - 100 / (1 + rs)], the RSI column before [fillna]. *)
Definition rsi_raw (close : list fl) : list fl :=
  map (fun x => fsub (Fin 100) (fdiv (Fin 100) (fadd (Fin 1) x)))
      (rel_strength close).

(** [calculate_indicators(df, spy_df)]; the result is [None] when
    [df['Close']] raises. *)
Definition calculate_indicators (df : DataFrame) (spy_df : option DataFrame)
    : option DataFrame :=
  close ← columns df !! "Close";
  let df1 := set_column "SMA_20" (rolling_mean 20 1 close) df in
  let df2 := set_column "SMA_50" (rolling_mean 50 1 close) df1 in
  let df3 := set_column "SMA_200" (rolling_mean 200 1 close) df2 in
  let ret_col := map (fun x => fmul x (Fin 100)) (pct_change 1 close) in
  let df4 := set_column "Return" ret_col df3 in
  let df5 := set_column "RSI" (fillna (Fin 50) (rsi_raw close)) df4 in
  match relative_columns df5 close ret_col spy_df with
  | Some out => Some out
  | None => Some (set_scalar "Rel_Perf_3M" (Fin 0)
                   (set_scalar "Alpha" (Fin 0) df5))
  end.

(** *** Trend classifier *)

Definition NEUTRAL : string * string := ("Neutral", "#8a94a6").

(** [determine_trend_state(df)]; [None] when a column lookup raises. *)
Definition determine_trend_state (df : DataFrame)
    : option (string * string) :=
  if df_empty df then Some NEUTRAL
  else
    price ← cur df "Close";
    sma ← cur df SMA_KEY;
    let rel := default (Fin 0) (cur df "Rel_Perf_3M") in
    if fgt price sma && fgt rel (Fin 0) then Some ("LEADING", "#26a69a")
    else if fgt price sma && flt rel (Fin 0) then Some ("WEAKENING", "#F7DC6F")
    else if flt price sma && fgt rel (Fin 0) then Some ("IMPROVING", "#45B7D1")
    else if flt price sma && flt rel (Fin 0) then Some ("LAGGING", "#ef5350")
    else Some NEUTRAL.

End Sector.

(* ===================================================================== *)
(** ** Value classes used in the bounds *)
(* ===================================================================== *)

Module Bounds.




(** One row of the RSI column, from that row's average gain and loss. *)
Definition rsi_row (g l : fl) : fl :=
  let rs := fdiv g (if feq l (Fin 0) then NaN else l) in
  let v := fsub (Fin 100) (fdiv (Fin 100) (fadd (Fin 1) rs)) in
  if isnan v then Fin 50 else v.

End Bounds.

(* ===================================================================== *)
(** ** Test inputs *)
(* ===================================================================== *)

Module Scenario.
Import Reversal.

(** The smoothed V: 50 bars falling linearly from 100 to 50, then 50 bars
    rising linearly from 50 back to 100 (two [linspace]s of 50 points). *)
Definition v_value (i : nat) : Q :=
  if (i <? 50)%nat
  then (100 - 50 * inject_Z (Z.of_nat i) / 49)%Q
  else (50 + 50 * inject_Z (Z.of_nat (i - 50)) / 49)%Q.

(** The 100-bar frame with that smoothed column, bar [i] being dated
    [date_at i] and closing at [raw_at i]. *)
Definition v_frame (date_at : nat → Z) (raw_at : nat → fl) : frame :=
  map (fun i => {| date := date_at i; raw := raw_at i;
                   sma := Fin (v_value i) |})
      (seq 0 100).

Definition one_percent : fl := Fin (1 # 100).

(** A rise to a smoothed 120 followed by a fall. *)
Definition peak_frame : frame :=
  [ {| date := 1; raw := Fin 10; sma := Fin 100 |};
    {| date := 2; raw := Fin 20; sma := Fin 110 |};
    {| date := 3; raw := Fin 30; sma := Fin 120 |};
    {| date := 4; raw := Fin 40; sma := Fin 100 |} ].

Import Sector.

(** [n] daily bars from day [first_day] on, stamped at midnight, every
    price column flat at 100. *)
Definition bars (first_day : Z) (n : nat) : DataFrame :=
  let flat := repeat (Fin 100) n in
  {| index := map (fun i => (first_day + Z.of_nat i) * 86400) (seq 0 n);
     columns := <["Open" := flat]> (<["High" := flat]> (<["Low" := flat]>
                (<["Close" := flat]> (<["Volume" := flat]> ∅)))) |}.

(** Midnight of day 2000, nothing cached, nothing done yet, every path
    writable. *)
Definition world0 : world :=
  {| fs := ∅; now := 2000 * 86400; slept := []; requests := 0;
     writable := fun _ => true |}.

(** The world after storing 1100 daily bars (days 0 to 1099) under ["XLF"]
    in [world0]. *)
Definition world_stale : world :=
  snd (save_cached_data "XLF" (bars 0 1100) world0).

(** One row closing exactly on its 50-row average while outperforming the
    benchmark. *)
Definition boundary_frame : DataFrame :=
  {| index := [0];
     columns := <["Close" := [Fin 5]]> (<["SMA_50" := [Fin 5]]>
                (<["Rel_Perf_3M" := [Fin 3]]> ∅)) |}.


(** A chart body of three bars of which only the middle one has
    values. *)
Definition patchy_chart : response :=
  let col := [NaN; Fin 1; NaN] in
  Chart [0; 86400; 172800]
    (<["open" := col]> (<["high" := col]> (<["low" := col]>
     (<["close" := col]> (<["volume" := col]> ∅)))))
    None.

End Scenario.

(* ===================================================================== *)
(** ** Shapes of smoothed series, and the smoothed column of
       [run_analysis] ([MarketMonitorLivev6.py]) *)
(* ===================================================================== *)

Module Shapes.
Import Reversal.

(** The smoothed values of [rows] are finite and none is below its
    predecessor ([prev] for the first). *)
Fixpoint rising_from (prev : Q) (rows : list row) : Prop :=
  match rows with
  | [] => True
  | r :: tl => ∃ q, sma r = Fin q ∧ (prev <= q)%Q ∧ rising_from q tl
  end.

Definition rising (rows : list row) : Prop :=
  match rows with
  | [] => True
  | r :: tl => ∃ q, sma r = Fin q ∧ rising_from q tl
  end.

(** The smoothed values of [rows] are finite and each is below its
    predecessor ([prev] for the first). *)
Fixpoint falling_from (prev : Q) (rows : list row) : Prop :=
  match rows with
  | [] => True
  | r :: tl => ∃ q, sma r = Fin q ∧ (q < prev)%Q ∧ falling_from q tl
  end.

Definition falling (rows : list row) : Prop :=
  match rows with
  | [] => True
  | r :: tl => ∃ q, sma r = Fin q ∧ falling_from q tl
  end.

(** The trend the detector is in while it tracks a future event of kind
    [k]. *)
Definition trend_of (k : kind) : Z :=
  match k with peak => 1 | trough => -1 end.

(** [rx] is a row of [leg] whose smoothed value no row of [leg] exceeds
    (for a peak) or undercuts (for a trough). *)
Definition leg_extreme (k : kind) (leg : list row) (rx : row) : Prop :=
  rx ∈ leg ∧
  ∀ x, x ∈ leg →
    match k with
    | peak => fle (sma x) (sma rx) = true
    | trough => fle (sma rx) (sma x) = true
    end.

(** After the rows [pre], the detector is flat, or it is on a leg: the
    rows since its trend last changed, of which the stored extreme is the
    extreme. *)
Definition on_leg (price_at : Z → cell) (threshold : fl) (r0 : row)
    (pre : list row) (st : state) : Prop :=
  trend st = 0 ∨
  ∃ k before leg rx,
    trend st = trend_of k ∧ pre = before ++ leg ∧
    trend (scan price_at threshold (init r0) before) ≠ trend_of k ∧
    leg_extreme k leg rx ∧
    date rx = last_date st ∧ sma rx = last_sma_val st.

Definition SMA_PERIOD : nat := 20.

(** The two columns [find_sma_reversals] is given for an asset: its raw
    column and [df[col].rolling(SMA_PERIOD).mean()]. *)
Definition with_sma (dates : list Z) (raws : list fl) : frame :=
  zip_with (fun d xs => {| date := d; raw := fst xs; sma := snd xs |})
    dates (zip raws (rolling_mean SMA_PERIOD SMA_PERIOD raws)).

(** A climb with a pause, and a steady slide, of four bars each. *)
Definition climb : frame :=
  [ {| date := 1; raw := Fin 10; sma := Fin 100 |};
    {| date := 2; raw := Fin 20; sma := Fin 110 |};
    {| date := 3; raw := Fin 30; sma := Fin 110 |};
    {| date := 4; raw := Fin 40; sma := Fin 130 |} ].

Definition slide : frame :=
  [ {| date := 1; raw := Fin 10; sma := Fin 130 |};
    {| date := 2; raw := Fin 20; sma := Fin 120 |};
    {| date := 3; raw := Fin 30; sma := Fin 110 |};
    {| date := 4; raw := Fin 40; sma := Fin 100 |} ].

End Shapes.

(* ===================================================================== *)
(** ** Symbols as file names *)
(* ===================================================================== *)

Module Names.

(** A symbol that is a plain file name: no ['/'] in it, so that its cache
    file sits in the cache directory under that very name. *)
Fixpoint plain_name (s : string) : bool :=
  match s with
  | EmptyString => true
  | String c rest => negb (Ascii.eqb c "/") && plain_name rest
  end.

End Names.

(* ===================================================================== *)
(** ** The frame a reply is turned into ([get_stock_data]) *)
(* ===================================================================== *)

Module Reply.
Import Sector Scenario.

Definition PRICE_COLUMNS : list string :=
  ["Open"; "High"; "Low"; "Close"; "Volume"].

(** A well-formed frame with exactly the five price columns. *)
Definition price_frame (df : DataFrame) : Prop :=
  well_formed df
  ∧ ∀ name, is_Some (columns df !! name) ↔ name ∈ PRICE_COLUMNS.

(** Every frame pickled in the cache directory is a price frame. *)
Definition sound_cache (files : gmap string file) : Prop :=
  ∀ path df fetch_time,
    files !! path = Some (Pickled (Some df) fetch_time) → price_frame df.

(** A reply carrying two bars, and the frame built from it. *)
Definition two_bar_chart : response :=
  Chart [0; 86400]
    (<["open" := [Fin 1; Fin 2]]> (<["high" := [Fin 1; Fin 2]]>
     (<["low" := [Fin 1; Fin 2]]> (<["close" := [Fin 1; Fin 2]]>
     (<["volume" := [Fin 1; Fin 2]]> ∅)))))
    None.

Definition two_bar_frame : DataFrame :=
  {| index := [0; 86400];
     columns := <["Open" := [Fin 1; Fin 2]]> (<["High" := [Fin 1; Fin 2]]>
                (<["Low" := [Fin 1; Fin 2]]> (<["Close" := [Fin 1; Fin 2]]>
                (<["Volume" := [Fin 1; Fin 2]]> ∅)))) |}.

(** A reply carrying 2000 daily bars, from day 0 on, every price at 100:
    the frame built from it is [bars 0 2000]. *)
Definition long_chart : response :=
  let flat := repeat (Fin 100) 2000 in
  Chart (map (fun i => Z.of_nat i * 86400) (seq 0 2000))
    (<["open" := flat]> (<["high" := flat]> (<["low" := flat]>
     (<["close" := flat]> (<["volume" := flat]> ∅)))))
    None.

(** [world0] with a cache directory in which nothing can be written. *)
Definition locked_world : world :=
  {| fs := ∅; now := 2000 * 86400; slept := []; requests := 0;
     writable := fun _ => false |}.

End Reply.

(* ===================================================================== *)
(** ** Columns written by [calculate_indicators] *)
(* ===================================================================== *)

Module Columns.

Definition INDICATOR_COLUMNS : list string :=
  ["SMA_20"; "SMA_50"; "SMA_200"; "Return"; "RSI"; "Alpha"; "Rel_Perf_3M"].

(** A finite value between [lo] and [hi]. *)
Definition within (lo hi : Q) (x : fl) : Prop :=
  ∃ q, x = Fin q ∧ (lo <= q)%Q ∧ (q <= hi)%Q.

(** A finite value. *)
Definition finite (x : fl) : Prop := ∃ q, x = Fin q.

(** A magnitude of closes for which a sum of 200 of them stays far from
    the end of the float range (about 1.8 * 10^308). *)
Definition MAX_CLOSE : Q := inject_Z (10 ^ 300).

(** NaN or a finite value equal to [c]. *)
Definition nan_or (c : Q) (x : fl) : Prop :=
  x = NaN ∨ ∃ q, x = Fin q ∧ (q == c)%Q.

(** A column of finite values none of which is below the one before it
    ([never_falls]), or none of which is above the one before it
    ([never_rises]). *)
Fixpoint climbs_from (prev : Q) (col : list fl) : Prop :=
  match col with
  | [] => True
  | Fin q :: tl => (prev <= q)%Q ∧ climbs_from q tl
  | _ => False
  end.

Definition never_falls (col : list fl) : Prop :=
  match col with
  | [] => True
  | Fin q :: tl => climbs_from q tl
  | _ => False
  end.



(** The day-to-day changes of the rows after a row closing at [prev]. *)
Fixpoint steps (prev : fl) (col : list fl) : list fl :=
  match col with
  | [] => []
  | x :: tl => fsub x prev :: steps x tl
  end.


End Columns.

(* ===================================================================== *)
(** ** The price series of [MarketMonitorLivev6.py] *)
(* ===================================================================== *)

Module Monitor.
Import Sector.

(** A [pd.Series] of closes: its rows in order, each a label (seconds
    since the epoch) and a value. *)
Definition series : Type := list (Z * fl).

(** [fetch_yahoo_data(ticker, start_date, end_date, interval)], as a
    function of the reply to its one request. Whatever is raised inside
    the [try] (by the request, by [raise_for_status], by a missing key, by
    [pd.to_datetime] on a timestamp out of range, or by [pd.Series] when
    the two arrays differ in length) ends in the empty series of the
    [except]; otherwise the rows without a close are dropped
    ([dropna]). *)
Definition fetch_yahoo_data (reply : response) : series :=
  match reply with
  | Chart timestamps quote _ =>
      match quote !! "close" with
      | Some closes =>
          if forallb in_datetime_range timestamps
             && (length closes =? length timestamps)%nat
          then List.filter (fun row => notna (snd row))
                 (zip timestamps closes)
          else []
      | None => []
      end
  | _ => []
  end.

(** [s[~s.index.duplicated(keep='last')]]: a row is dropped when its label
    comes again further down. *)
Fixpoint keep_last (s : series) : series :=
  match s with
  | [] => []
  | row :: tl =>
      if bool_decide (fst row ∈ tl.*1) then keep_last tl
      else row :: keep_last tl
  end.

(** [s.sort_index()], here by insertion (it is only applied to series
    whose labels are distinct, on which every sorting method agrees). *)
Fixpoint insert_row (row : Z * fl) (s : series) : series :=
  match s with
  | [] => [row]
  | row' :: tl =>
      if fst row <=? fst row' then row :: s else row' :: insert_row row tl
  end.

Definition sort_index (s : series) : series := foldr insert_row [] s.

(** The series [run_analysis] keeps for one symbol, from its weekly and
    its recent daily history; [None] when the symbol is skipped. *)
Definition combined (s_weekly s_recent : series) : option series :=
  match s_weekly, s_recent with
  | [], [] => None
  | _, _ => Some (sort_index (keep_last (s_weekly ++ s_recent)))
  end.

(** Labels in strictly increasing order. *)
Fixpoint increasing_from (prev : Z) (labels : list Z) : Prop :=
  match labels with
  | [] => True
  | t :: tl => prev < t ∧ increasing_from t tl
  end.

Definition increasing (labels : list Z) : Prop :=
  match labels with
  | [] => True
  | t :: tl => increasing_from t tl
  end.

(** Two weekly bars, and two daily bars the second of which falls on the
    day of the second weekly bar. *)
Definition weekly_bars : series := [(0, Fin 1); (604800, Fin 2)].
Definition daily_bars : series := [(518400, Fin 5); (604800, Fin 3)].

(** A reply with three bars, the middle one without a close. *)
Definition gappy_chart : response :=
  Chart [0; 86400; 172800] (<["close" := [Fin 1; NaN; Fin 3]]> ∅) None.

End Monitor.

(* ===================================================================== *)
(** ** Comparisons *)
(* ===================================================================== *)

Module FloatFacts.

Lemma Qltb_lt x y : Qltb x y = true ↔ (x < y)%Q.
Proof.
  unfold Qltb. rewrite Qlt_alt.
  destruct (x ?= y)%Q; split; congruence.
Qed.

Lemma Qltb_ge x y : (y <= x)%Q → Qltb x y = false.
Proof.
  intros Hle. destruct (Qltb x y) eqn:E; [|done].
  apply Qltb_lt in E. exfalso. by apply (Qlt_not_le x y).
Qed.

Lemma feq_not_lt a b : feq a b = true → flt a b = false ∧ flt b a = false.
Proof.
  destruct a as [| |x|], b as [| |y|]; simpl; try done.
  intros H. apply Qeq_bool_eq in H.
  split; apply Qltb_ge; rewrite H; apply Qle_refl.
Qed.

End FloatFacts.
Import FloatFacts.

(* ===================================================================== *)
(** ** Properties of the reversal detector *)
(* ===================================================================== *)

Module ReversalFacts.
Import Reversal Scenario.

Section Scan.
Variable price_at : Z → cell.
Variable threshold : fl.

Lemma scan_snoc st rows r :
  scan price_at threshold st (rows ++ [r])
  = step price_at threshold (scan price_at threshold st rows) r.
Proof. unfold scan. by rewrite fold_left_app. Qed.

(** One iteration leaves the event list alone, or appends one event
    anchored at the stored extreme while the trend flips. *)
Lemma step_cases st r :
  let st' := step price_at threshold st r in
  (reversals st' = reversals st ∧ (trend st' = trend st ∨ trend st = 0))
  ∨ (trend st = 1 ∧ trend st' = -1 ∧
     reversals st' =
       reversals st ++ [(last_date st, price_at (last_date st), peak)])
  ∨ (trend st = -1 ∧ trend st' = 1 ∧
     reversals st' =
       reversals st ++ [(last_date st, price_at (last_date st), trough)]).
Proof.
  unfold step.
  destruct (Z.eqb_spec (trend st) 0) as [E0|N0].
  { repeat case_match; simpl; auto. }
  destruct (Z.eqb_spec (trend st) 1) as [E1|N1].
  { repeat case_match; simpl; auto 6. }
  destruct (Z.eqb_spec (trend st) (-1)) as [E2|N2].
  { repeat case_match; simpl; auto 6. }
  auto.
Qed.

(** The stored extreme is either kept or replaced by the current row. *)
Lemma step_anchor st r :
  let st' := step price_at threshold st r in
  (last_date st' = last_date st ∧ last_sma_val st' = last_sma_val st)
  ∨ (last_date st' = date r ∧ last_sma_val st' = sma r).
Proof. unfold step. repeat case_match; simpl; auto. Qed.

Lemma alternating_snoc es e :
  alternating (es ++ [e]) = true ↔
  alternating es = true ∧
  match last es with
  | None => True
  | Some e' => ev_kind e' ≠ ev_kind e
  end.
Proof.
  induction es as [|a es IH]; [simpl; tauto|].
  destruct es as [|b es].
  - simpl. destruct (ev_kind a), (ev_kind e); intuition congruence.
  - change (alternating ((a :: b :: es) ++ [e]))
      with (match ev_kind a, ev_kind b with
            | peak, trough | trough, peak => alternating ((b :: es) ++ [e])
            | _, _ => false
            end).
    change (alternating (a :: b :: es))
      with (match ev_kind a, ev_kind b with
            | peak, trough | trough, peak => alternating (b :: es)
            | _, _ => false
            end).
    change (last (a :: b :: es)) with (last (b :: es)).
    destruct (ev_kind a), (ev_kind b); try apply IH; intuition congruence.
Qed.

Lemma step_coherent st r :
  coherent st → coherent (step price_at threshold st r).
Proof.
  intros [Halt Hlast].
  destruct (step_cases st r) as [[Hr Ht]|[(Ht & Ht' & Hr)|(Ht & Ht' & Hr)]];
    unfold coherent; rewrite Hr.
  - split; [done|].
    destruct (last (reversals st)) as [e|]; [|done].
    destruct Ht as [->|Ht]; [done|].
    destruct (ev_kind e); lia.
  - rewrite last_snoc; simpl. split; [|done].
    apply alternating_snoc. split; [done|].
    destruct (last (reversals st)) as [e|]; [|done].
    simpl. destruct (ev_kind e); [lia|done].
  - rewrite last_snoc; simpl. split; [|done].
    apply alternating_snoc. split; [done|].
    destruct (last (reversals st)) as [e|]; [|done].
    simpl. destruct (ev_kind e); [done|lia].
Qed.

Lemma scan_coherent rows st :
  coherent st → coherent (scan price_at threshold st rows).
Proof.
  revert st. induction rows as [|r rows IH]; intros st H; [done|].
  simpl. apply IH. by apply step_coherent.
Qed.

(** Every event of a scan was either there at the start or appended by
    one iteration, from the extreme stored when that iteration began. *)
Lemma scan_event_origin rows st0 e :
  In e (reversals (scan price_at threshold st0 rows)) →
  In e (reversals st0) ∨
  ∃ pre r post,
    rows = pre ++ r :: post ∧
    reversals (step price_at threshold (scan price_at threshold st0 pre) r)
    = reversals (scan price_at threshold st0 pre) ++ [e] ∧
    ev_date e = last_date (scan price_at threshold st0 pre) ∧
    ev_price e = price_at (last_date (scan price_at threshold st0 pre)).
Proof.
  induction rows as [|r rows IH] using rev_ind; [by left|].
  rewrite scan_snoc. intros Hin.
  destruct (step_cases (scan price_at threshold st0 rows) r)
    as [[Hr _]|[(_ & _ & Hr)|(_ & _ & Hr)]]; rewrite Hr in Hin.
  - destruct (IH Hin) as [?|(pre & r' & post & -> & ?)]; [by left|].
    right. exists pre, r', (post ++ [r]).
    by rewrite <- app_assoc.
  - apply in_app_or in Hin as [Hin|[<-|[]]].
    + destruct (IH Hin) as [?|(pre & r' & post & -> & ?)]; [by left|].
      right. exists pre, r', (post ++ [r]). by rewrite <- app_assoc.
    + right. exists rows, r, []. by rewrite Hr.
  - apply in_app_or in Hin as [Hin|[<-|[]]].
    + destruct (IH Hin) as [?|(pre & r' & post & -> & ?)]; [by left|].
      right. exists pre, r', (post ++ [r]). by rewrite <- app_assoc.
    + right. exists rows, r, []. by rewrite Hr.
Qed.

(** The stored extreme is always a row already seen (or the anchor row),
    with its smoothed value. *)
Lemma scan_anchor r0 pre :
  ∃ rx, In rx (r0 :: pre) ∧
    date rx = last_date (scan price_at threshold (init r0) pre) ∧
    sma rx = last_sma_val (scan price_at threshold (init r0) pre).
Proof.
  induction pre as [|r pre IH] using rev_ind.
  - exists r0. simpl. auto.
  - rewrite scan_snoc.
    destruct (step_anchor (scan price_at threshold (init r0) pre) r)
      as [[-> ->]|[-> ->]].
    + destruct IH as (rx & Hin & ? & ?). exists rx.
      split; [|done]. destruct Hin as [->|Hin]; [by left|right].
      apply in_or_app. by left.
    + exists r. split; [|done]. right. apply in_or_app. right. by left.
Qed.

(** An iteration that appends an event starts from a rising or falling
    state. *)
Lemma step_emits_trend st r e :
  reversals (step price_at threshold st r) = reversals st ++ [e] →
  trend st ≠ 0.
Proof.
  intros He.
  destruct (step_cases st r) as [[Hr _]|[(Ht & _)|(Ht & _)]]; try lia.
  rewrite Hr in He. apply (f_equal length) in He.
  rewrite length_app in He. simpl in He. lia.
Qed.

End Scan.

Lemma dropna_subset df r : In r (dropna df) → In r df.
Proof. unfold dropna. rewrite filter_In. tauto. Qed.

(** With unique index labels, [df.loc[d, raw_col]] is the scalar of the
    one row labelled [d]. *)
Lemma loc_raw_unique df rx :
  NoDup (map date df) → In rx df → loc_raw df (date rx) = Scalar (raw rx).
Proof.
  intros Hnd Hin. unfold loc_raw.
  assert (List.filter (fun r => date r =? date rx) df = [rx]) as ->; [|done].
  induction df as [|a df IH]; [done|].
  simpl in Hnd. apply NoDup_cons in Hnd as [Hnotin Hnd].
  simpl. destruct Hin as [->|Hin].
  - rewrite Z.eqb_refl. f_equal.
    clear IH. induction df as [|b df IH]; [done|].
    simpl in *. apply not_elem_of_cons in Hnotin as [Hne Hnotin].
    apply NoDup_cons in Hnd as [_ Hnd].
    destruct (Z.eqb_spec (date b) (date rx)); [congruence|]. by apply IH.
  - destruct (Z.eqb_spec (date a) (date rx)) as [E|_]; [|by apply IH].
    exfalso. apply Hnotin. rewrite E.
    apply list_elem_of_In, in_map, Hin.
Qed.

(** C3. For every input frame and every threshold, no two consecutive
    events returned by [find_sma_reversals] have the same kind: a peak is
    followed by a trough and a trough by a peak. *)
Theorem reversal_kinds_alternate (df : frame) (threshold : fl) :
  alternating (find_sma_reversals df threshold) = true.
Proof.
  unfold find_sma_reversals.
  destruct (dropna df) as [|r0 rest] eqn:E; [done|].
  apply scan_coherent. by split.
Qed.

(** C4. Every event returned by [find_sma_reversals] is appended by one
    iteration of the loop (the confirming row [r]); it is dated at the
    extreme stored when that iteration starts, which is the date of a row
    [rx] seen before [r] whose smoothed value is the tracked extreme; and
    its price is [df.loc] of the raw column at that date, that is (index
    labels being unique) the raw close of [rx]: neither the smoothed value
    of [rx] nor the raw close of the confirming row [r]. *)
Theorem event_anchored_at_stored_extreme
    (df : frame) (threshold : fl) (e : event) :
  In e (find_sma_reversals df threshold) →
  ∃ r0 pre r post rx,
    dropna df = pre ++ r :: post ∧ head (dropna df) = Some r0 ∧
    reversals (step (loc_raw df) threshold
                 (scan (loc_raw df) threshold (init r0) pre) r)
    = reversals (scan (loc_raw df) threshold (init r0) pre) ++ [e] ∧
    ev_date e = last_date (scan (loc_raw df) threshold (init r0) pre) ∧
    ev_price e = loc_raw df (ev_date e) ∧
    In rx pre ∧ date rx = ev_date e ∧
    sma rx = last_sma_val (scan (loc_raw df) threshold (init r0) pre) ∧
    (NoDup (map date df) → ev_price e = Scalar (raw rx)).
Proof.
  unfold find_sma_reversals.
  destruct (dropna df) as [|r0 rest] eqn:E; [done|].
  intros Hin.
  apply scan_event_origin in Hin as [[]|(pre & r & post & Hrows & Hr & Hd & Hp)].
  exists r0, pre, r, post.
  pose proof (step_emits_trend _ _ _ _ _ Hr) as Htrend.
  destruct pre as [|r0' pre]; [done|].
  injection Hrows as <- Hrest.
  destruct (scan_anchor (loc_raw df) threshold r0 (r0 :: pre))
    as (rx & Hrx & Hdate & Hsma).
  assert (In rx (r0 :: pre)) as Hrx' by (destruct Hrx as [->|?]; [by left|done]).
  exists rx. rewrite Hd, Hp, Hdate.
  split_and!; try done; [by rewrite Hrest|].
  intros Hnd. rewrite <- Hdate. apply loc_raw_unique; [done|].
  apply dropna_subset. rewrite E, Hrest.
  destruct Hrx' as [->|Hrx']; [by left|right].
  apply in_or_app. by left.
Qed.

Lemma event_anchored_at_stored_extreme_witness :
  ∃ r0 pre r post rx,
    dropna peak_frame = pre ++ r :: post ∧ head (dropna peak_frame) = Some r0 ∧
    reversals (step (loc_raw peak_frame) one_percent
                 (scan (loc_raw peak_frame) one_percent (init r0) pre) r)
    = reversals (scan (loc_raw peak_frame) one_percent (init r0) pre)
      ++ [(3, Scalar (Fin 30), peak)] ∧
    3 = last_date (scan (loc_raw peak_frame) one_percent (init r0) pre) ∧
    Scalar (Fin 30) = loc_raw peak_frame 3 ∧
    In rx pre ∧ date rx = 3 ∧
    sma rx = last_sma_val (scan (loc_raw peak_frame) one_percent (init r0) pre) ∧
    (NoDup (map date peak_frame) → Scalar (Fin 30) = Scalar (raw rx)).
Proof.
  apply (event_anchored_at_stored_extreme peak_frame one_percent
           (3, Scalar (Fin 30), peak)).
  vm_compute. left. reflexivity.
Defined.

(** The three candidates for an event's price differ on a small frame:
    the peak stored at date 3 (raw 30, smoothed 120) is confirmed at
    date 4 (raw 40) and reported at 30. *)
Example peak_reports_raw_at_extreme :
  find_sma_reversals peak_frame one_percent = [(3, Scalar (Fin 30), peak)].
Proof. reflexivity. Qed.

Lemma v_frame_dropna date_at raw_at :
  (∀ i, (i < 100)%nat → isnan (raw_at i) = false) →
  dropna (v_frame date_at raw_at) = v_frame date_at raw_at.
Proof.
  intros Hraw. unfold dropna, v_frame.
  assert (∀ i, In i (seq 0 100) → isnan (raw_at i) = false) as Hl
    by (intros i Hi; apply Hraw; apply in_seq in Hi; lia).
  revert Hl. generalize (seq 0 100) as l.
  induction l as [|i l IH]; intros Hl; [done|].
  simpl. unfold notna at 1. rewrite Hl by (by left).
  simpl. f_equal. apply IH. intros j Hj. apply Hl. by right.
Qed.

Lemma v_frame_dates_unique date_at raw_at :
  (∀ i j, (i < 100)%nat → (j < 100)%nat → date_at i = date_at j → i = j) →
  NoDup (map date (v_frame date_at raw_at)).
Proof.
  intros Hinj. unfold v_frame. rewrite map_map. simpl.
  change (NoDup (date_at <$> seq 0 100)).
  apply NoDup_fmap_2_strong; [|apply NoDup_seq].
  intros i j Hi Hj. apply elem_of_seq in Hi, Hj. apply Hinj; lia.
Qed.

Lemma v_value_minimum i :
  (i < 100)%nat → (v_value 49 <= v_value i)%Q.
Proof.
  intros Hi.
  assert (forallb (fun j => Qle_bool (v_value 49) (v_value j)) (seq 0 100)
          = true) as Hall by (vm_compute; reflexivity).
  rewrite forallb_forall in Hall.
  apply Qle_bool_iff, Hall, in_seq. lia.
Qed.

(** C1. On the 100-bar smoothed V (linear from 100 down to 50 over bars
    0..49, linear from 50 back up to 100 over bars 50..99), whatever the
    (distinct) dates and the (defined) raw closes of the bars, a 1%
    threshold yields exactly one event: a trough, dated at bar 49, the
    first bar at which the smoothed series attains its minimum 50, and
    priced at the raw close of that bar. *)
Theorem single_v_one_trough (date_at : nat → Z) (raw_at : nat → fl) :
  (∀ i j, (i < 100)%nat → (j < 100)%nat → date_at i = date_at j → i = j) →
  (∀ i, (i < 100)%nat → isnan (raw_at i) = false) →
  find_sma_reversals (v_frame date_at raw_at) one_percent
  = [(date_at 49%nat, Scalar (raw_at 49%nat), trough)]
  ∧ (v_value 0 == 100)%Q ∧ (v_value 49 == 50)%Q ∧ (v_value 99 == 100)%Q
  ∧ (∀ i, (i < 100)%nat → (v_value 49 <= v_value i)%Q)
  ∧ (∀ i, (i < 49)%nat → (v_value 49 < v_value i)%Q).
Proof.
  intros Hinj Hraw. split_and!; try reflexivity.
  - unfold find_sma_reversals. rewrite v_frame_dropna by done. cbv zeta.
    assert (∀ f : Z → cell,
              match v_frame date_at raw_at with
              | [] => []
              | r0 :: _ =>
                  reversals (scan f one_percent (init r0)
                               (v_frame date_at raw_at))
              end = [(date_at 49%nat, f (date_at 49%nat), trough)]) as ->
      by (intros f; vm_compute; reflexivity).
    assert (loc_raw (v_frame date_at raw_at) (date_at 49%nat)
            = Scalar (raw_at 49%nat)) as ->; [|done].
    apply (loc_raw_unique (v_frame date_at raw_at)
             {| date := date_at 49%nat; raw := raw_at 49%nat;
                sma := Fin (v_value 49) |}).
    + by apply v_frame_dates_unique.
    + unfold v_frame. apply in_map_iff. exists 49%nat. split; [done|].
      apply in_seq. lia.
  - apply v_value_minimum.
  - intros i Hi.
    assert (forallb (fun j => Qltb (v_value 49) (v_value j)) (seq 0 49)
            = true) as Hall by (vm_compute; reflexivity).
    rewrite forallb_forall in Hall.
    assert (In i (seq 0 49)) as Hin by (apply in_seq; lia).
    apply Hall in Hin. unfold Qltb in Hin.
    destruct (v_value 49 ?= v_value i)%Q eqn:E; try done.
Qed.

Lemma single_v_one_trough_witness :
  find_sma_reversals (v_frame Z.of_nat (fun i => of_Z (Z.of_nat i + 7)))
    one_percent
  = [(49, Scalar (of_Z 56), trough)]
  ∧ (v_value 0 == 100)%Q ∧ (v_value 49 == 50)%Q ∧ (v_value 99 == 100)%Q
  ∧ (∀ i, (i < 100)%nat → (v_value 49 <= v_value i)%Q)
  ∧ (∀ i, (i < 49)%nat → (v_value 49 < v_value i)%Q).
Proof.
  apply (single_v_one_trough Z.of_nat (fun i => of_Z (Z.of_nat i + 7))).
  - intros i j _ _ H. lia.
  - intros i _. reflexivity.
Defined.

End ReversalFacts.

(* ===================================================================== *)
(** ** Properties of the cache *)
(* ===================================================================== *)

Module CacheFacts.
Import Sector Scenario.

(** C5. An entry whose most recent bar lags the clock by more than 7 days
    is a miss, whatever its fetch time (so also when it was fetched within
    the last 168 hours), its size and the span it covers. *)
Theorem stale_entry_is_miss
    (files : gmap string file) (clock : Z) (ticker : string)
    (df : DataFrame) (fetch_time last_date : Z) :
  files !! cache_path ticker = Some (Pickled (Some df) fetch_time) →
  index_max (index df) = Some last_date →
  date_of clock - date_of last_date > 7 →
  load_cached_data files clock ticker = None.
Proof.
  intros Hfile Hlast Hlag. unfold load_cached_data.
  rewrite Hfile, Hlast.
  repeat case_match; try done. lia.
Qed.

Lemma stale_entry_is_miss_witness :
  load_cached_data (fs world_stale) (now world_stale) "XLF" = None.
Proof.
  apply (stale_entry_is_miss (fs world_stale) (now world_stale) "XLF"
           (bars 0 1100) (2000 * 86400) (1099 * 86400)).
  - vm_compute. reflexivity.
  - vm_compute. reflexivity.
  - vm_compute. reflexivity.
Defined.

(** C6, refuted as stated. 1100 daily bars whose first bar is 2000
    days (about 5.5 years) old meet the size and span requirements, yet a
    load right after the store is a miss, the last bar being 901 days
    old. *)
Lemma roundtrip_fails_on_stale_series :
  df_empty (bars 0 1100) = false
  ∧ (200 ≤ len (bars 0 1100))%nat ∧ (1100 ≤ len (bars 0 1100))%nat
  ∧ index_min (index (bars 0 1100)) = Some 0
  ∧ (47 # 10 <= inject_Z (date_of (now world0) - date_of 0) / (36525 # 100))%Q
  ∧ load_cached_data
      (fs (snd (save_cached_data "XLF" (bars 0 1100) world0)))
      (now (snd (save_cached_data "XLF" (bars 0 1100) world0))) "XLF"
    = None.
Proof.
  split_and!.
  - vm_compute. reflexivity.
  - apply Nat.leb_le. vm_compute. reflexivity.
  - apply Nat.leb_le. vm_compute. reflexivity.
  - vm_compute. reflexivity.
  - vm_compute. discriminate.
  - vm_compute. reflexivity.
Qed.

(** C6 (amended). A non-empty series of at least 1100 bars whose first bar
    is at least 4.7 years old and whose last bar is at most 7 days old,
    stored for a symbol whose cache file can be written and loaded at the
    same clock reading, comes back unchanged. *)
Theorem roundtrip_of_current_series
    (ticker : string) (df : DataFrame) (w : world) (first_date last_date : Z) :
  writable w (cache_path ticker) = true →
  df_empty df = false →
  (200 ≤ len df)%nat → (1100 ≤ len df)%nat →
  index_min (index df) = Some first_date →
  index_max (index df) = Some last_date →
  (47 # 10
   <= inject_Z (date_of (now w) - date_of first_date) / (36525 # 100))%Q →
  date_of (now w) - date_of last_date ≤ 7 →
  load_cached_data (fs (snd (save_cached_data ticker df w)))
    (now (snd (save_cached_data ticker df w))) ticker
  = Some df.
Proof.
  intros Hcan Hne H200 H1100 Hfirst Hlast Hspan Hlag.
  unfold save_cached_data. rewrite Hne, Hcan. simpl.
  unfold load_cached_data. rewrite lookup_insert_eq.
  rewrite Z.sub_diag. change (Qltb CACHE_HOURS (inject_Z 0 / 3600)) with false.
  rewrite Hne, Hfirst, Hlast. cbv iota beta zeta.
  rewrite (Qltb_ge _ _ Hspan).
  replace (len df <? MIN_BARS_REQUIRED)%nat with false
    by (symmetry; apply Nat.ltb_ge; unfold MIN_BARS_REQUIRED; lia).
  replace (len df <? EXPECTED_MIN_BARS_5Y)%nat with false
    by (symmetry; apply Nat.ltb_ge; unfold EXPECTED_MIN_BARS_5Y; lia).
  simpl.
  destruct (Z.gtb_spec (date_of (now w) - date_of last_date) 7); [lia|done].
Qed.

Lemma roundtrip_of_current_series_witness :
  load_cached_data
    (fs (snd (save_cached_data "XLF" (bars 0 2000) world0)))
    (now (snd (save_cached_data "XLF" (bars 0 2000) world0))) "XLF"
  = Some (bars 0 2000).
Proof.
  apply (roundtrip_of_current_series "XLF" (bars 0 2000) world0
           0 (1999 * 86400)).
  - reflexivity.
  - vm_compute. reflexivity.
  - apply Nat.leb_le. vm_compute. reflexivity.
  - apply Nat.leb_le. vm_compute. reflexivity.
  - vm_compute. reflexivity.
  - vm_compute. reflexivity.
  - vm_compute. discriminate.
  - vm_compute. discriminate.
Defined.

(** C10. Storing an empty frame changes nothing: the world after the call
    is the world before it, so every file of the cache directory is what
    it was and any later load sees the old entry. *)
Theorem store_empty_is_noop (ticker : string) (df : DataFrame) (w : world) :
  df_empty df = true →
  save_cached_data ticker df w = (Ok tt, w)
  ∧ (∀ path, fs (snd (save_cached_data ticker df w)) !! path = fs w !! path)
  ∧ (∀ clock t,
       load_cached_data (fs (snd (save_cached_data ticker df w))) clock t
       = load_cached_data (fs w) clock t).
Proof.
  intros He. unfold save_cached_data. rewrite He. done.
Qed.

Lemma store_empty_is_noop_witness :
  save_cached_data "XLF" empty_frame world_stale = (Ok tt, world_stale)
  ∧ (∀ path, fs (snd (save_cached_data "XLF" empty_frame world_stale)) !! path
             = fs world_stale !! path)
  ∧ (∀ clock t,
       load_cached_data
         (fs (snd (save_cached_data "XLF" empty_frame world_stale))) clock t
       = load_cached_data (fs world_stale) clock t).
Proof.
  apply (store_empty_is_noop "XLF" empty_frame world_stale).
  vm_compute. reflexivity.
Defined.

End CacheFacts.

(* ===================================================================== *)
(** ** Properties of the fetcher *)
(* ===================================================================== *)

Module FetchFacts.
Import Sector Scenario.

Section Network.
Variable net : nat → response.
Variable ticker : string.

(** The world after a frame has been stored by the attempt made in [w]. *)
Lemma attempt_body_outcome w :
  attempt_body net ticker w
  = match frame_of_reply (net (requests w)) with
    | None => (Raised, asked w)
    | Some df =>
        if df_empty df then (Ok df, asked w)
        else if writable w (cache_path ticker) then
          (Ok df,
           {| fs := <[cache_path ticker := Pickled (Some df) (now w)]> (fs w);
              now := now w; slept := slept w; requests := S (requests w);
              writable := writable w |})
        else (Raised, asked w)
    end.
Proof.
  unfold attempt_body, frame_of_reply, mbind, M_bind, fetch_chart.
  destruct (net (requests w)) as [| | |ts quote adjclose]; try done.
  simpl. destruct (build_frame _ _ _) as [df0|]; [|done]. simpl.
  unfold save_cached_data, mret, M_ret. simpl.
  destruct (df_empty _); [done|]. by destruct (writable w _).
Qed.

Lemma attempt_body_fails w :
  fails ticker w (net (requests w)) = true →
  attempt_body net ticker w = (Raised, asked w).
Proof.
  rewrite attempt_body_outcome. unfold fails.
  destruct (frame_of_reply _) as [df|]; [|done].
  destruct (df_empty df); [done|]. by destruct (writable w _).
Qed.

Lemma attempt_body_returns w df :
  frame_of_reply (net (requests w)) = Some df →
  df_empty df = true ∨ writable w (cache_path ticker) = true →
  attempt_body net ticker w
  = (Ok df,
     {| fs := if df_empty df then fs w
              else <[cache_path ticker := Pickled (Some df) (now w)]> (fs w);
        now := now w; slept := slept w; requests := S (requests w);
        writable := writable w |}).
Proof.
  intros Hdf Hcan. rewrite attempt_body_outcome, Hdf.
  destruct (df_empty df); [done|].
  destruct Hcan as [Hc|Hc]; [done|by rewrite Hc].
Qed.




End Network.

(** Gaps are filled before the rows without any value are dropped: of
    three bars of which only the middle one has values, the last is
    filled from it and kept, the first is dropped. *)
Lemma frame_of_reply_fills_then_drops :
  frame_of_reply patchy_chart
  = Some {| index := [86400; 172800];
            columns :=
              <["Open" := [Fin 1; Fin 1]]> (<["High" := [Fin 1; Fin 1]]>
              (<["Low" := [Fin 1; Fin 1]]> (<["Close" := [Fin 1; Fin 1]]>
              (<["Volume" := [Fin 1; Fin 1]]> ∅)))) |}.
Proof. vm_compute. reflexivity. Qed.




End FetchFacts.

(* ===================================================================== *)
(** ** Properties of the indicators and of the classifier *)
(* ===================================================================== *)

Module IndicatorFacts.
Import Sector Scenario Bounds.

(** *** Arithmetic of one RSI row *)




(** *** Columns of gains and losses *)

Lemma lookup_map {A B} (f : A → B) (l : list A) (i : nat) :
  map f l !! i = f <$> l !! i.
Proof. apply list_lookup_fmap. Qed.






Lemma window_subset w col i x : In x (window w col i) → In x col.
Proof.
  unfold window. intros H.
  apply list_elem_of_In in H. apply list_elem_of_In.
  by apply (subseteq_take (S i) col), (subseteq_drop (S i - w)).
Qed.


Lemma length_rolling_mean w m col : length (rolling_mean w m col) = length col.
Proof. unfold rolling_mean. by rewrite length_map, length_seq. Qed.

Lemma length_shift n (col : list fl) : length (shift n col) = length col.
Proof. unfold shift. rewrite length_take, length_app. lia. Qed.

Lemma length_diff col : length (diff col) = length col.
Proof. unfold diff. rewrite length_zip_with, length_shift. lia. Qed.

Lemma length_avg_gain close : length (avg_gain close) = length close.
Proof.
  unfold avg_gain, clip_lower.
  by rewrite length_rolling_mean, length_map, length_diff.
Qed.

Lemma length_avg_loss close : length (avg_loss close) = length close.
Proof.
  unfold avg_loss, clip_upper.
  by rewrite length_rolling_mean, !length_map, length_diff.
Qed.

(** The RSI column, row by row. *)
Lemma rsi_column_rows close :
  fillna (Fin 50) (rsi_raw close)
  = zip_with rsi_row (avg_gain close) (avg_loss close).
Proof.
  unfold rsi_raw, rel_strength, fillna, replace.
  generalize (avg_gain close) as g, (avg_loss close) as l.
  induction g as [|x g IH]; intros [|y l]; try done.
  simpl. by rewrite IH.
Qed.

Lemma length_rsi_column close :
  length (fillna (Fin 50) (rsi_raw close)) = length close.
Proof.
  rewrite rsi_column_rows, length_zip_with, length_avg_gain, length_avg_loss.
  lia.
Qed.


(** *** Warm-up and flat losses *)

Lemma lookup_rolling_mean w m col i :
  (i < length col)%nat →
  rolling_mean w m col !! i
  = Some (if (length (List.filter notna (window w col i)) <? m)%nat then NaN
          else fdiv (fsum (List.filter notna (window w col i)))
                 (of_Z (Z.of_nat
                          (length (List.filter notna (window w col i)))))).
Proof.
  intros Hi. unfold rolling_mean. rewrite lookup_map.
  by rewrite (lookup_seq_lt 0 _ i Hi).
Qed.




Lemma rsi_row_no_gain l : rsi_row NaN l = Fin 50.
Proof. reflexivity. Qed.

Lemma rsi_row_flat_loss g l : feq l (Fin 0) = true → rsi_row g l = Fin 50.
Proof. intros H. unfold rsi_row. rewrite H. by destruct g. Qed.

(** *** The columns [calculate_indicators] writes *)

Lemma relative_columns_frame df close ret_col spy out name :
  relative_columns df close ret_col spy = Some out →
  name ≠ "Alpha" → name ≠ "Rel_Perf_3M" → name ≠ "Rel_Line" →
  columns out !! name = columns df !! name ∧ index out = index df.
Proof.
  unfold relative_columns. intros H N1 N2 N3.
  destruct spy as [spy|]; [|done].
  destruct (df_empty spy); [done|].
  destruct (columns spy !! "Close") as [spy_close|]; [|done]. simpl in H.
  destruct (reindex _ _ _) as [aligned0|]; [|done]. simpl in H.
  destruct (any_notna _); [|done].
  injection H as <-. simpl.
  by rewrite !lookup_insert_ne.
Qed.

Lemma calculate_indicators_rsi df spy close :
  columns df !! "Close" = Some close →
  ∃ out,
    calculate_indicators df spy = Some out
    ∧ index out = index df
    ∧ columns out !! "RSI" = Some (fillna (Fin 50) (rsi_raw close))
    ∧ columns out !! "SMA_50" = Some (rolling_mean 50 1 close)
    ∧ columns out !! "Close" = Some close.
Proof.
  intros Hclose. unfold calculate_indicators. rewrite Hclose. simpl.
  destruct (relative_columns _ _ _ _) as [out|] eqn:E.
  - exists out. split; [done|].
    split; [by apply (relative_columns_frame _ _ _ _ _ "RSI" E)|].
    split_and!.
    + destruct (relative_columns_frame _ _ _ _ _ "RSI" E) as [-> _]; try done.
      simpl. by rewrite lookup_insert_eq.
    + destruct (relative_columns_frame _ _ _ _ _ "SMA_50" E) as [-> _];
        try done.
      simpl. rewrite !lookup_insert_ne by done. by rewrite lookup_insert_eq.
    + destruct (relative_columns_frame _ _ _ _ _ "Close" E) as [-> _];
        try done.
      simpl. by rewrite !lookup_insert_ne.
  - eexists. split; [done|]. simpl. split; [done|].
    split_and!.
    + rewrite !lookup_insert_ne by done. by rewrite lookup_insert_eq.
    + rewrite !lookup_insert_ne by done. by rewrite lookup_insert_eq.
    + by rewrite !lookup_insert_ne.
Qed.



(** *** Degraded benchmark *)

Lemma relative_columns_degraded df close ret_col spy_df :
  (spy_df = None ∨ ∃ spy, spy_df = Some spy ∧ df_empty spy = true) →
  relative_columns df close ret_col spy_df = None.
Proof.
  intros [->|(spy & -> & He)]; [done|].
  unfold relative_columns. by rewrite He.
Qed.

Lemma calculate_indicators_degraded df spy_df close :
  columns df !! "Close" = Some close →
  (spy_df = None ∨ ∃ spy, spy_df = Some spy ∧ df_empty spy = true) →
  ∃ out,
    calculate_indicators df spy_df = Some out
    ∧ index out = index df
    ∧ columns out !! "Alpha" = Some (repeat (Fin 0) (len df))
    ∧ columns out !! "Rel_Perf_3M" = Some (repeat (Fin 0) (len df)).
Proof.
  intros Hclose Hspy. unfold calculate_indicators. rewrite Hclose. simpl.
  rewrite relative_columns_degraded by done.
  eexists. split; [done|]. simpl. split_and!; [done|..].
  - rewrite lookup_insert_ne by done. by rewrite lookup_insert_eq.
  - by rewrite lookup_insert_eq.
Qed.

Lemma lookup_repeat_const (v x : fl) n i : repeat v n !! i = Some x → x = v.
Proof.
  intros H. apply list_elem_of_lookup_2, list_elem_of_In in H.
  by apply repeat_spec in H.
Qed.

(** C8. When no benchmark is supplied, or an empty one, then for every
    frame with a Close column [calculate_indicators] returns normally, on
    the same index, and its Alpha and Rel_Perf_3M columns are zero at
    every row. *)
Theorem empty_benchmark_gives_zeros
    (df : DataFrame) (spy_df : option DataFrame) (close : list fl) :
  columns df !! "Close" = Some close →
  (spy_df = None ∨ ∃ spy, spy_df = Some spy ∧ df_empty spy = true) →
  ∃ out alpha rel_perf,
    calculate_indicators df spy_df = Some out
    ∧ index out = index df
    ∧ columns out !! "Alpha" = Some alpha
    ∧ columns out !! "Rel_Perf_3M" = Some rel_perf
    ∧ length alpha = len df ∧ length rel_perf = len df
    ∧ (∀ i v, alpha !! i = Some v → v = Fin 0)
    ∧ (∀ i v, rel_perf !! i = Some v → v = Fin 0).
Proof.
  intros Hclose Hspy.
  destruct (calculate_indicators_degraded df spy_df close Hclose Hspy)
    as (out & Hout & Hidx & Ha & Hr).
  exists out, (repeat (Fin 0) (len df)), (repeat (Fin 0) (len df)).
  split_and!; try done; try apply repeat_length.
  - intros i v. apply lookup_repeat_const.
  - intros i v. apply lookup_repeat_const.
Qed.

Lemma empty_benchmark_gives_zeros_witness :
  ∃ out alpha rel_perf,
    calculate_indicators (bars 0 20) (Some empty_frame) = Some out
    ∧ index out = index (bars 0 20)
    ∧ columns out !! "Alpha" = Some alpha
    ∧ columns out !! "Rel_Perf_3M" = Some rel_perf
    ∧ length alpha = len (bars 0 20) ∧ length rel_perf = len (bars 0 20)
    ∧ (∀ i v, alpha !! i = Some v → v = Fin 0)
    ∧ (∀ i v, rel_perf !! i = Some v → v = Fin 0).
Proof.
  apply (empty_benchmark_gives_zeros (bars 0 20) (Some empty_frame)
           (repeat (Fin 100) 20)).
  - vm_compute. reflexivity.
  - right. exists empty_frame. split; reflexivity.
Defined.

(** *** Classifier *)

Lemma trend_neutral_at_boundary df price sma :
  df_empty df = false →
  cur df "Close" = Some price → cur df SMA_KEY = Some sma →
  feq price sma = true
  ∨ feq (default (Fin 0) (cur df "Rel_Perf_3M")) (Fin 0) = true →
  determine_trend_state df = Some NEUTRAL.
Proof.
  intros Hne Hp Hs Hb. unfold determine_trend_state.
  set (rel := default (Fin 0) (cur df "Rel_Perf_3M")) in *.
  rewrite Hne, Hp, Hs. cbn -[flt fgt]. unfold fgt.
  destruct Hb as [Hb|Hb]; apply feq_not_lt in Hb as [H1 H2];
    rewrite H1, H2; simpl.
  - done.
  - by rewrite !andb_false_r.
Qed.

(** C9. On a non-empty frame whose last row closes exactly on its 50-row
    average, or whose last relative performance is exactly zero, the
    classifier answers Neutral, none of the four strict quadrant tests
    being met. In particular it answers Neutral on whatever
    [calculate_indicators] returns for a missing or empty benchmark. *)
Theorem trend_neutral_on_quadrant_boundary :
  (∀ df price sma,
     df_empty df = false →
     cur df "Close" = Some price → cur df SMA_KEY = Some sma →
     feq price sma = true
     ∨ feq (default (Fin 0) (cur df "Rel_Perf_3M")) (Fin 0) = true →
     determine_trend_state df = Some NEUTRAL)
  ∧ (∀ df spy_df close,
       columns df !! "Close" = Some close → length close = len df →
       (spy_df = None ∨ ∃ spy, spy_df = Some spy ∧ df_empty spy = true) →
       ∃ out, calculate_indicators df spy_df = Some out
              ∧ determine_trend_state out = Some NEUTRAL).
Proof.
  split; [apply trend_neutral_at_boundary|].
  intros df spy_df close Hclose Hlen Hspy.
  destruct (calculate_indicators_rsi df spy_df close Hclose)
    as (out & Hout & Hidx & _ & Hsma & Hc).
  destruct (calculate_indicators_degraded df spy_df close Hclose Hspy)
    as (out' & Hout' & _ & _ & Hrel).
  rewrite Hout in Hout'. injection Hout' as <-.
  exists out. split; [done|].
  destruct (df_empty out) eqn:He.
  { unfold determine_trend_state. by rewrite He. }
  assert (len out ≠ 0)%nat as Hrows.
  { unfold df_empty in He. apply orb_false_iff in He as [He _].
    by apply Nat.eqb_neq in He. }
  assert (len out = len df) as Hlo by (unfold len; by rewrite Hidx).
  assert (is_Some (last close)) as [price Hprice].
  { apply last_is_Some. intros ->. simpl in Hlen. lia. }
  assert (is_Some (last (rolling_mean 50 1 close))) as [sma Hs].
  { apply last_is_Some. intros E. apply (f_equal length) in E.
    rewrite length_rolling_mean in E. simpl in E. lia. }
  apply (trend_neutral_at_boundary out price sma He).
  - unfold cur. by rewrite Hc.
  - unfold cur, SMA_KEY. by rewrite Hsma.
  - right. unfold cur. rewrite Hrel. simpl.
    destruct (last (repeat (Fin 0) (len df))) as [v|] eqn:El; [|done].
    rewrite last_lookup in El. by rewrite (lookup_repeat_const _ _ _ _ El).
Qed.

Lemma trend_neutral_on_quadrant_boundary_witness :
  determine_trend_state boundary_frame = Some NEUTRAL.
Proof.
  apply (proj1 trend_neutral_on_quadrant_boundary boundary_frame
           (Fin 5) (Fin 5)).
  - vm_compute. reflexivity.
  - vm_compute. reflexivity.
  - vm_compute. reflexivity.
  - left. reflexivity.
Defined.

End IndicatorFacts.

(* ===================================================================== *)
(** ** More on the reversal detector *)
(* ===================================================================== *)

Module OrderFacts.

Lemma fle_refl a : isnan a = false → fle a a = true.
Proof. destruct a; try done. intros _. simpl. apply Qle_bool_iff, Qle_refl. Qed.

Lemma fle_flt_trans a b c : fle a b = true → flt b c = true → fle a c = true.
Proof.
  destruct a as [| |x|], b as [| |y|], c as [| |z|]; simpl; try done.
  rewrite !Qle_bool_iff, Qltb_lt. intros. lra.
Qed.

Lemma flt_fle_trans a b c : flt a b = true → fle b c = true → fle a c = true.
Proof.
  destruct a as [| |x|], b as [| |y|], c as [| |z|]; simpl; try done.
  rewrite !Qle_bool_iff, Qltb_lt. intros. lra.
Qed.

Lemma not_flt_fle a b :
  isnan a = false → isnan b = false → flt a b = false → fle b a = true.
Proof.
  destruct a as [| |x|], b as [| |y|]; simpl; try done.
  intros _ _ H. apply Qle_bool_iff.
  destruct (Qlt_le_dec x y) as [Hlt|?]; [|done].
  apply Qltb_lt in Hlt. congruence.
Qed.

Lemma flt_irrefl a : flt a a = false.
Proof.
  destruct a as [| |x|]; simpl; try done.
  destruct (Qltb x x) eqn:E; [|done]. apply Qltb_lt in E. lra.
Qed.

End OrderFacts.
Import OrderFacts.

Module ReversalMore.
Import Reversal Scenario ReversalFacts Shapes.

Lemma dropna_valid df r : In r (dropna df) → isnan (sma r) = false.
Proof.
  unfold dropna. rewrite filter_In. intros [_ H].
  apply andb_true_iff in H as [_ H]. unfold notna in H.
  by destruct (isnan (sma r)).
Qed.

Section Legs.
Variable price_at : Z → cell.
Variable threshold : fl.
Variable r0 : row.

Lemma snoc_neq {A} (l : list A) (x : A) : l ≠ l ++ [x].
Proof.
  intros E. apply (f_equal length) in E. rewrite length_app in E.
  simpl in E. lia.
Qed.

(** An iteration that appends an event does so on a rise (a peak) or on a
    fall (a trough). *)
Lemma step_emits_kind st r e :
  reversals (step price_at threshold st r) = reversals st ++ [e] →
  (trend st = 1 ∧ ev_kind e = peak) ∨ (trend st = -1 ∧ ev_kind e = trough).
Proof.
  unfold step.
  destruct (Z.eqb_spec (trend st) 0) as [E0|N0].
  { repeat case_match; simpl; intros Hrev; by apply snoc_neq in Hrev. }
  destruct (Z.eqb_spec (trend st) 1) as [E1|N1].
  { destruct (fgt _ _); simpl; [intros Hrev; by apply snoc_neq in Hrev|].
    destruct (flt _ _) eqn:E; simpl; [|intros Hrev; by apply snoc_neq in Hrev].
    intros Hrev. apply app_inv_head in Hrev. injection Hrev as <-. by left. }
  destruct (Z.eqb_spec (trend st) (-1)) as [E2|N2].
  { destruct (flt _ _); simpl; [intros Hrev; by apply snoc_neq in Hrev|].
    destruct (fgt _ _) eqn:E; simpl; [|intros Hrev; by apply snoc_neq in Hrev].
    intros Hrev. apply app_inv_head in Hrev. injection Hrev as <-. by right. }
  intros Hrev. by apply snoc_neq in Hrev.
Qed.

Lemma leg_extreme_single k r : isnan (sma r) = false → leg_extreme k [r] r.
Proof.
  intros Hr. split; [by apply list_elem_of_singleton|].
  intros x ->%list_elem_of_singleton. destruct k; by apply fle_refl.
Qed.

Lemma step_on_leg pre r :
  Forall (fun x => isnan (sma x) = false) pre → isnan (sma r) = false →
  on_leg price_at threshold r0 pre (scan price_at threshold (init r0) pre) →
  on_leg price_at threshold r0 (pre ++ [r])
    (step price_at threshold (scan price_at threshold (init r0) pre) r).
Proof.
  intros Hpre Hr Hleg.
  set (st := scan price_at threshold (init r0) pre) in *.
  destruct Hleg as [E0|(k & before & leg & rx & Ek & Epre & Hbefore
                        & [Hin Hext] & Hdate & Hsma)].
  - unfold step. rewrite E0. simpl.
    destruct (fge _ _).
    { right. exists peak, pre, [r], r. simpl.
      split_and!; try done; [fold st; lia|by apply leg_extreme_single]. }
    destruct (fle _ _); [|by left].
    right. exists trough, pre, [r], r. simpl.
    split_and!; try done; [fold st; lia|by apply leg_extreme_single].
  - assert (isnan (last_sma_val st) = false) as Hlast.
    { rewrite <- Hsma. rewrite Forall_forall in Hpre. apply Hpre.
      rewrite Epre. apply elem_of_app. by right. }
    unfold step. destruct k; simpl in Ek; rewrite Ek; simpl.
    + destruct (fgt (sma r) (last_sma_val st)) eqn:Egt.
      { right. exists peak, before, (leg ++ [r]), r. simpl.
        split_and!; try done; [by rewrite Epre, app_assoc|].
        split; [apply elem_of_app; right; by apply list_elem_of_singleton|].
        intros x [Hx| ->%list_elem_of_singleton]%elem_of_app;
          [|by apply fle_refl].
        apply fle_flt_trans with (sma rx); [by apply Hext|].
        by rewrite Hsma. }
      destruct (flt (sma r) _).
      { right. exists trough, pre, [r], r. simpl.
        split_and!; try done; [fold st; lia|by apply leg_extreme_single]. }
      right. exists peak, before, (leg ++ [r]), rx.
      split_and!; try done; [by rewrite Epre, app_assoc|].
      split; [apply elem_of_app; by left|].
      intros x [Hx| ->%list_elem_of_singleton]%elem_of_app; [by apply Hext|].
      rewrite Hsma. by apply not_flt_fle.
    + destruct (flt (sma r) (last_sma_val st)) eqn:Elt.
      { right. exists trough, before, (leg ++ [r]), r. simpl.
        split_and!; try done; [by rewrite Epre, app_assoc|].
        split; [apply elem_of_app; right; by apply list_elem_of_singleton|].
        intros x [Hx| ->%list_elem_of_singleton]%elem_of_app;
          [|by apply fle_refl].
        apply flt_fle_trans with (sma rx); [by rewrite Hsma|by apply Hext]. }
      destruct (fgt (sma r) _).
      { right. exists peak, pre, [r], r. simpl.
        split_and!; try done; [fold st; lia|by apply leg_extreme_single]. }
      right. exists trough, before, (leg ++ [r]), rx.
      split_and!; try done; [by rewrite Epre, app_assoc|].
      split; [apply elem_of_app; by left|].
      intros x [Hx| ->%list_elem_of_singleton]%elem_of_app; [by apply Hext|].
      rewrite Hsma. by apply not_flt_fle.
Qed.

Lemma scan_on_leg pre :
  Forall (fun x => isnan (sma x) = false) pre →
  on_leg price_at threshold r0 pre (scan price_at threshold (init r0) pre).
Proof.
  induction pre as [|r pre IH] using rev_ind; intros Hall; [by left|].
  apply Forall_app in Hall as [Hpre Hr]. apply Forall_inv in Hr.
  rewrite scan_snoc. apply step_on_leg; [done|done|by apply IH].
Qed.

Lemma sublist_app_drop {A} (l1 l2 k : list A) :
  l1 ++ l2 `sublist_of` k → l1 `sublist_of` k.
Proof. intros H. etrans; [|exact H]. by apply sublist_inserts_r. Qed.

(** One iteration keeps the state, or moves the stored extreme to the
    current row, appending an event dated at the old one or nothing. *)
Lemma step_shape st r :
  step price_at threshold st r = st
  ∨ (reversals (step price_at threshold st r) = reversals st
     ∧ last_date (step price_at threshold st r) = date r)
  ∨ (∃ k, reversals (step price_at threshold st r)
          = reversals st ++ [(last_date st, price_at (last_date st), k)]
          ∧ last_date (step price_at threshold st r) = date r).
Proof.
  unfold step. repeat case_match; simpl; eauto.
Qed.

(** The dates of the events, followed by the date of the stored extreme,
    are picked in order from the dates of the rows scanned. *)
Lemma scan_dates_in_order pre :
  (map ev_date (reversals (scan price_at threshold (init r0) (r0 :: pre)))
   ++ [last_date (scan price_at threshold (init r0) (r0 :: pre))])
  `sublist_of` map date (r0 :: pre).
Proof.
  induction pre as [|r pre IH] using rev_ind.
  - change (scan price_at threshold (init r0) [r0])
      with (step price_at threshold (init r0) r0).
    destruct (step_shape (init r0) r0) as [->|[[-> ->]|(k & Hk & _)]];
      try done.
    by apply step_emits_trend in Hk.
  - rewrite app_comm_cons, scan_snoc, map_app.
    destruct (step_shape (scan price_at threshold (init r0) (r0 :: pre)) r)
      as [->|[[-> ->]|(k & -> & ->)]].
    + by apply sublist_inserts_r.
    + apply sublist_app; [|done].
      eapply sublist_app_drop, IH.
    + rewrite map_app. apply sublist_app; [exact IH|done].
Qed.

End Legs.

Section Monotone.
Variable price_at : Z → cell.

(** With threshold 0 the first valid row, compared with itself, starts a
    rise. *)
Lemma step_first_row r0 q :
  sma r0 = Fin q →
  step price_at (Fin 0) (init r0) r0
  = {| trend := 1; last_sma_val := Fin q; last_date := date r0;
       reversals := [] |}.
Proof.
  intros Hq. unfold step, init. simpl. rewrite Hq. simpl.
  assert (Qle_bool (q * (1 + 0)) q = true) as ->; [|done].
  apply Qle_bool_iff. ring_simplify. apply Qle_refl.
Qed.

Lemma rising_from_weaken l q rows :
  (l <= q)%Q → rising_from q rows → rising_from l rows.
Proof.
  destruct rows as [|r rows]; [done|].
  intros Hle (q' & Hq' & Hle' & Hup). exists q'.
  split_and!; [done|lra|done].
Qed.

Lemma step_rising st l r q :
  trend st = 1 → last_sma_val st = Fin l → sma r = Fin q → (l <= q)%Q →
  reversals (step price_at (Fin 0) st r) = reversals st
  ∧ trend (step price_at (Fin 0) st r) = 1
  ∧ ∃ l', last_sma_val (step price_at (Fin 0) st r) = Fin l' ∧ (l' <= q)%Q.
Proof.
  intros Htr Hl Hq Hle. unfold step. rewrite Htr, Hq, Hl. simpl.
  destruct (Qltb l q) eqn:E1; simpl.
  { split_and!; [done|done|]. exists q. split; [done|apply Qle_refl]. }
  assert (Qltb q (l * (1 + - 0)) = false) as ->.
  { apply Qltb_ge. ring_simplify. exact Hle. }
  split_and!; [done|done|]. by exists l.
Qed.

Lemma scan_rising rows st l :
  reversals st = [] → trend st = 1 → last_sma_val st = Fin l →
  rising_from l rows →
  reversals (scan price_at (Fin 0) st rows) = [].
Proof.
  revert st l. induction rows as [|r rows IH]; intros st l Hrev Htr Hl Hup;
    [done|].
  destruct Hup as (q & Hq & Hle & Hup).
  destruct (step_rising st l r q Htr Hl Hq Hle) as (Hr & Ht & l' & Hl' & Hle').
  change (scan price_at (Fin 0) st (r :: rows))
    with (scan price_at (Fin 0) (step price_at (Fin 0) st r) rows).
  apply (IH _ l'); [congruence|done|done|].
  by apply rising_from_weaken with q.
Qed.

Lemma step_falling st l r q :
  trend st = -1 → last_sma_val st = Fin l → sma r = Fin q → (q < l)%Q →
  reversals (step price_at (Fin 0) st r) = reversals st
  ∧ trend (step price_at (Fin 0) st r) = -1
  ∧ last_sma_val (step price_at (Fin 0) st r) = Fin q.
Proof.
  intros Htr Hl Hq Hlt. unfold step. rewrite Htr, Hq, Hl. simpl.
  assert (Qltb q l = true) as -> by by apply Qltb_lt.
  done.
Qed.

Lemma scan_falling rows st l :
  trend st = -1 → last_sma_val st = Fin l → falling_from l rows →
  reversals (scan price_at (Fin 0) st rows) = reversals st.
Proof.
  revert st l. induction rows as [|r rows IH]; intros st l Htr Hl Hdown;
    [done|].
  destruct Hdown as (q & Hq & Hlt & Hdown).
  destruct (step_falling st l r q Htr Hl Hq Hlt) as (Hr & Ht & Hl').
  change (scan price_at (Fin 0) st (r :: rows))
    with (scan price_at (Fin 0) (step price_at (Fin 0) st r) rows).
  by rewrite (IH _ q).
Qed.

End Monotone.

(** X1. With threshold 0, a smoothed series of finite values none of
    which is below the one before yields no event: the first valid row
    starts a rise, and no later row undercuts the highest value seen. *)
Theorem rising_series_no_event (df : frame) :
  rising (dropna df) →
  find_sma_reversals df (Fin 0) = [].
Proof.
  intros Hup. unfold find_sma_reversals.
  destruct (dropna df) as [|r0 rest]; [done|].
  destruct Hup as (q & Hq & Hrest).
  change (scan (loc_raw df) (Fin 0) (init r0) (r0 :: rest))
    with (scan (loc_raw df) (Fin 0)
            (step (loc_raw df) (Fin 0) (init r0) r0) rest).
  rewrite (step_first_row _ r0 q Hq). by apply (scan_rising _ _ _ q).
Qed.

Lemma rising_series_no_event_witness :
  find_sma_reversals climb (Fin 0) = [].
Proof.
  apply (rising_series_no_event climb).
  simpl. repeat (eexists; split_and!; [reflexivity|..]).
  all: try (vm_compute; discriminate); done.
Defined.

(** X2. With threshold 0, a smoothed series of two or more finite values
    each of which is below the one before yields exactly one event: a
    peak dated at the first valid row, which, compared with itself, has
    started a rise that the second row ends. *)
Theorem falling_series_one_peak
    (df : frame) (r0 r1 : row) (rest : list row) :
  dropna df = r0 :: r1 :: rest →
  falling (dropna df) →
  find_sma_reversals df (Fin 0) = [(date r0, loc_raw df (date r0), peak)].
Proof.
  intros E Hdown. unfold find_sma_reversals. rewrite E in *.
  destruct Hdown as (q0 & Hq0 & q1 & Hq1 & Hlt & Hrest).
  change (scan (loc_raw df) (Fin 0) (init r0) (r0 :: r1 :: rest))
    with (scan (loc_raw df) (Fin 0)
            (step (loc_raw df) (Fin 0)
               (step (loc_raw df) (Fin 0) (init r0) r0) r1) rest).
  rewrite (step_first_row _ r0 q0 Hq0).
  unfold step at 1. simpl. rewrite Hq1. simpl.
  assert (Qltb q0 q1 = false) as -> by (apply Qltb_ge; lra).
  assert (Qltb q1 (q0 * (1 + - 0)) = true) as ->.
  { apply Qltb_lt. ring_simplify. exact Hlt. }
  by rewrite (scan_falling _ _ _ q1).
Qed.

Lemma falling_series_one_peak_witness :
  find_sma_reversals slide (Fin 0) = [(1, Scalar (Fin 10), peak)].
Proof.
  refine (falling_series_one_peak slide
            {| date := 1; raw := Fin 10; sma := Fin 130 |}
            {| date := 2; raw := Fin 20; sma := Fin 120 |} _ _ _).
  - reflexivity.
  - simpl. repeat (eexists; split_and!; [reflexivity|..]).
    all: try reflexivity; done.
Defined.

(** X3. Every event marks the extreme of the leg it closes. The rows since
    the detector last changed trend ([leg], which starts at the row that
    changed it) contain a row [rx] bearing the event's date whose smoothed
    value none of them exceeds (peak) or undercuts (trough), and the event
    is appended when the row after them, [r], is processed. *)
Theorem event_is_leg_extreme (df : frame) (threshold : fl) (e : event) :
  In e (find_sma_reversals df threshold) →
  ∃ r0 before leg r post rx,
    head (dropna df) = Some r0
    ∧ dropna df = before ++ leg ++ r :: post
    ∧ trend (scan (loc_raw df) threshold (init r0) before)
      ≠ trend_of (ev_kind e)
    ∧ trend (scan (loc_raw df) threshold (init r0) (before ++ leg))
      = trend_of (ev_kind e)
    ∧ leg_extreme (ev_kind e) leg rx
    ∧ date rx = ev_date e
    ∧ reversals (scan (loc_raw df) threshold (init r0)
                   ((before ++ leg) ++ [r]))
      = reversals (scan (loc_raw df) threshold (init r0) (before ++ leg))
        ++ [e].
Proof.
  unfold find_sma_reversals.
  destruct (dropna df) as [|r0 rest] eqn:E; [done|].
  intros Hin.
  apply scan_event_origin in Hin
    as [[]|(pre & r & post & Hrows & Hr & Hd & _)].
  assert (Forall (fun x => isnan (sma x) = false) pre) as Hvalid.
  { apply Forall_forall. intros x Hx. apply (dropna_valid df).
    rewrite E, Hrows. apply in_or_app. left. by apply list_elem_of_In. }
  pose proof (scan_on_leg (loc_raw df) threshold r0 pre Hvalid) as Hleg.
  destruct (step_emits_kind _ _ _ _ _ Hr) as [[Ht Hk]|[Ht Hk]];
    (destruct Hleg as [E0|(k & before & leg & rx & Ek & Epre & Hbefore
                           & Hext & Hdate & Hsma)]; [lia|]);
    (destruct k; simpl in Ek; [|]; try lia);
    exists r0, before, leg, r, post, rx; rewrite Hk, <- Epre; simpl;
    (split_and!; try done;
     [by rewrite Hrows, Epre, <- app_assoc|congruence
     |by rewrite scan_snoc]).
Qed.

Lemma event_is_leg_extreme_witness :
  ∃ r0 before leg r post rx,
    head (dropna peak_frame) = Some r0
    ∧ dropna peak_frame = before ++ leg ++ r :: post
    ∧ trend (scan (loc_raw peak_frame) one_percent (init r0) before)
      ≠ trend_of peak
    ∧ trend (scan (loc_raw peak_frame) one_percent (init r0) (before ++ leg))
      = trend_of peak
    ∧ leg_extreme peak leg rx
    ∧ date rx = 3
    ∧ reversals (scan (loc_raw peak_frame) one_percent (init r0)
                   ((before ++ leg) ++ [r]))
      = reversals (scan (loc_raw peak_frame) one_percent (init r0)
                     (before ++ leg))
        ++ [(3, Scalar (Fin 30), peak)].
Proof.
  apply (event_is_leg_extreme peak_frame one_percent
           (3, Scalar (Fin 30), peak)).
  vm_compute. left. reflexivity.
Defined.

Lemma dropna_sublist df : dropna df `sublist_of` df.
Proof.
  unfold dropna. induction df as [|r df IH]; [done|].
  simpl. destruct (_ && _); by constructor.
Qed.

Lemma event_dates_in_order df threshold :
  map ev_date (find_sma_reversals df threshold) ++ []
    `sublist_of` map date (dropna df)
  ∧ (length (find_sma_reversals df threshold)
     ≤ length (dropna df) - 1)%nat.
Proof.
  unfold find_sma_reversals.
  destruct (dropna df) as [|r0 rest] eqn:E; [done|].
  pose proof (scan_dates_in_order (loc_raw df) threshold r0 rest) as H.
  split.
  - rewrite app_nil_r. by eapply sublist_app_drop.
  - apply sublist_length in H.
    rewrite length_app, !length_map in H. simpl in *. lia.
Qed.

(** X4. The dates of the events are picked, in order and without
    repetition of a row, from the dates of the valid rows, and the first
    valid row yields none: there are fewer events than valid rows, and
    with distinct index labels no two events bear the same date. *)
Theorem events_follow_the_rows (df : frame) (threshold : fl) :
  map ev_date (find_sma_reversals df threshold)
    `sublist_of` map date (dropna df)
  ∧ (length (find_sma_reversals df threshold)
     ≤ length (dropna df) - 1)%nat
  ∧ (NoDup (map date df) →
     NoDup (map ev_date (find_sma_reversals df threshold))).
Proof.
  destruct (event_dates_in_order df threshold) as [Hsub Hlen].
  rewrite app_nil_r in Hsub. split_and!; [done|done|].
  intros Hnd.
  assert (map ev_date (find_sma_reversals df threshold)
            `sublist_of` map date df) as Hs.
  { etrans; [exact Hsub|]. apply (fmap_sublist date), dropna_sublist. }
  by eapply sublist_NoDup.
Qed.

Lemma events_follow_the_rows_witness :
  NoDup (map ev_date (find_sma_reversals peak_frame one_percent)).
Proof.
  apply (events_follow_the_rows peak_frame one_percent).
  apply (bool_decide_unpack _). vm_compute. exact I.
Defined.

Lemma rolling_mean_warm_up w col i :
  (S i < w)%nat → (i < length col)%nat →
  rolling_mean w w col !! i = Some NaN.
Proof.
  intros Hi Hlen. rewrite IndicatorFacts.lookup_rolling_mean by done.
  pose proof (filter_length_le notna (window w col i)) as Hle.
  unfold window in Hle at 2.
  rewrite length_drop, length_take in Hle.
  destruct (Nat.ltb_spec (length (List.filter notna (window w col i))) w);
    [done|lia].
Qed.

Lemma with_sma_rows dates raws r :
  r ∈ with_sma dates raws →
  ∃ i, dates !! i = Some (date r) ∧ raws !! i = Some (raw r)
       ∧ rolling_mean SMA_PERIOD SMA_PERIOD raws !! i = Some (sma r).
Proof.
  unfold with_sma. intros [i Hi]%list_elem_of_lookup. exists i.
  rewrite lookup_zip_with in Hi.
  apply bind_Some in Hi as (d & Hd & Hi).
  apply bind_Some in Hi as (xs & Hxs & Hi).
  rewrite lookup_zip_with in Hxs.
  apply bind_Some in Hxs as (x & Hx & Hxs).
  apply bind_Some in Hxs as (s & Hs & Hxs).
  by simplify_eq.
Qed.

(** X5. Fed the raw column and its 20-row mean, the detector dates every
    event at one of the rows from the 20th on, whose raw value is defined;
    a series of fewer than 20 rows yields no event. *)
Theorem no_event_during_warm_up
    (dates : list Z) (raws : list fl) (threshold : fl) :
  (∀ e, In e (find_sma_reversals (with_sma dates raws) threshold) →
     ∃ i x, (19 ≤ i)%nat ∧ dates !! i = Some (ev_date e)
            ∧ raws !! i = Some x ∧ isnan x = false)
  ∧ ((length raws < 20)%nat →
     find_sma_reversals (with_sma dates raws) threshold = []).
Proof.
  assert (∀ e, In e (find_sma_reversals (with_sma dates raws) threshold) →
            ∃ i x, (19 ≤ i)%nat ∧ dates !! i = Some (ev_date e)
                   ∧ raws !! i = Some x ∧ isnan x = false) as Hall.
  { intros e He.
    destruct (event_dates_in_order (with_sma dates raws) threshold)
      as [Hsub _].
    rewrite app_nil_r in Hsub.
    assert (ev_date e ∈ map date (dropna (with_sma dates raws))) as Hd.
    { eapply sublist_subseteq; [exact Hsub|].
      apply list_elem_of_In, in_map, He. }
    apply list_elem_of_In, in_map_iff in Hd as (r & Hdate & Hr).
    pose proof (dropna_valid _ _ Hr) as Hsma.
    pose proof Hr as Hraw. unfold dropna in Hraw.
    apply filter_In in Hraw as [Hin Hraw].
    apply andb_true_iff in Hraw as [Hraw _].
    apply list_elem_of_In, with_sma_rows in Hin as (i & Hi & Hx & Hs).
    exists i, (raw r). rewrite <- Hdate.
    split_and!; [|done|done|unfold notna in Hraw; by destruct (isnan (raw r))].
    destruct (Nat.le_gt_cases 19 i) as [|Hlt]; [done|].
    rewrite rolling_mean_warm_up in Hs.
    + injection Hs as Hs. by rewrite <- Hs in Hsma.
    + unfold SMA_PERIOD. lia.
    + by eapply lookup_lt_Some. }
  split; [done|]. intros Hshort.
  destruct (find_sma_reversals _ _) as [|e es]; [done|].
  destruct (Hall e) as (i & x & Hi & _ & Hx & _); [by left|].
  apply lookup_lt_Some in Hx. lia.
Qed.

Lemma no_event_during_warm_up_witness :
  find_sma_reversals
    (with_sma [1; 2; 3] [Fin 100; Fin 50; Fin 100]) one_percent = [].
Proof.
  apply (no_event_during_warm_up [1; 2; 3] [Fin 100; Fin 50; Fin 100]).
  simpl. lia.
Defined.

End ReversalMore.

(* ===================================================================== *)
(** ** More on the cache *)
(* ===================================================================== *)

Module CacheMore.
Import Sector Scenario Names.

(** The age test in whole seconds: 168 hours are 604800 seconds. *)
Lemma age_expired (s : Z) :
  Qltb CACHE_HOURS (inject_Z s / 3600) = (604800 <? s).
Proof.
  apply Bool.eq_iff_eq_true. rewrite Qltb_lt, Z.ltb_lt.
  unfold Qlt, CACHE_HOURS. simpl. lia.
Qed.

(** The span test in whole days: 4.7 years of 365.25 days are 1716.675
    days. *)
Lemma span_short (d : Z) :
  Qltb (inject_Z d / (36525 # 100)) (47 # 10) = (d <? 1717).
Proof.
  apply Bool.eq_iff_eq_true. rewrite Qltb_lt, Z.ltb_lt.
  unfold Qlt. simpl. lia.
Qed.

Lemma index_bounds_nonempty idx :
  idx ≠ [] → ∃ first last, index_min idx = Some first ∧ index_max idx = Some last.
Proof. destruct idx; [done|]. intros _. by eexists _, _. Qed.

Lemma load_hit_intro files clock ticker df ft first last :
  files !! cache_path ticker = Some (Pickled (Some df) ft) →
  clock - ft ≤ 604800 →
  df_empty df = false → (1100 ≤ len df)%nat →
  index_min (index df) = Some first → index_max (index df) = Some last →
  1717 ≤ date_of clock - date_of first →
  date_of clock - date_of last ≤ 7 →
  load_cached_data files clock ticker = Some df.
Proof.
  intros Hf Hage He Hlen Hmin Hmax Hspan Hlag. unfold load_cached_data.
  rewrite Hf, Hmin, Hmax, age_expired, span_short, He. simpl.
  destruct (Z.ltb_spec 604800 (clock - ft)); [lia|].
  destruct (Nat.ltb_spec (len df) MIN_BARS_REQUIRED);
    [unfold MIN_BARS_REQUIRED in *; lia|].
  destruct (Z.ltb_spec (date_of clock - date_of first) 1717); [lia|].
  destruct (Nat.ltb_spec (len df) EXPECTED_MIN_BARS_5Y);
    [unfold EXPECTED_MIN_BARS_5Y in *; lia|]. simpl.
  destruct (Z.gtb_spec (date_of clock - date_of last) 7); [lia|done].
Qed.

(** X6. A load is a hit exactly when the file holds a pickled frame that
    was fetched at most 604800 seconds (168 hours) ago, is not empty, has
    at least 1100 rows, starts at least 1717 days before today and ends at
    most 7 days before today; the frame returned is the one stored. *)
Theorem load_hit_iff
    (files : gmap string file) (clock : Z) (ticker : string)
    (df : DataFrame) :
  load_cached_data files clock ticker = Some df ↔
  ∃ fetch_time first_date last_date,
    files !! cache_path ticker = Some (Pickled (Some df) fetch_time)
    ∧ clock - fetch_time ≤ 604800
    ∧ df_empty df = false ∧ (1100 ≤ len df)%nat
    ∧ index_min (index df) = Some first_date
    ∧ index_max (index df) = Some last_date
    ∧ 1717 ≤ date_of clock - date_of first_date
    ∧ date_of clock - date_of last_date ≤ 7.
Proof.
  unfold load_cached_data. split.
  - destruct (files !! cache_path ticker) as [[|[df'|] ft]|]; try done.
    + rewrite age_expired.
      destruct (Z.ltb_spec 604800 (clock - ft)); [done|].
      destruct (df_empty df') eqn:He; [done|]. simpl.
      destruct (Nat.ltb_spec (len df') MIN_BARS_REQUIRED); [done|].
      destruct (index_min (index df')) as [first|] eqn:Emin; [|done].
      destruct (index_max (index df')) as [last|] eqn:Emax; [|done].
      rewrite span_short.
      destruct (Z.ltb_spec (date_of clock - date_of first) 1717); [done|].
      destruct (Nat.ltb_spec (len df') EXPECTED_MIN_BARS_5Y); [done|]. simpl.
      destruct (Z.gtb_spec (date_of clock - date_of last) 7); [done|].
      intros [= <-]. exists ft, first, last.
      unfold EXPECTED_MIN_BARS_5Y in *. split_and!; try done; lia.
    + by destruct (Qltb _ _).
  - intros (ft & first & last & Hf & Hage & He & Hlen & Hmin & Hmax
            & Hspan & Hlag).
    by eapply load_hit_intro.
Qed.

(** X7. An entry fetched more than 168 hours (604800 seconds) ago is a
    miss, whatever it holds. *)
Theorem expired_entry_is_miss
    (files : gmap string file) (clock : Z) (ticker : string)
    (odf : option DataFrame) (fetch_time : Z) :
  files !! cache_path ticker = Some (Pickled odf fetch_time) →
  604800 < clock - fetch_time →
  load_cached_data files clock ticker = None.
Proof.
  intros Hfile Hage. unfold load_cached_data. rewrite Hfile, age_expired.
  by destruct (Z.ltb_spec 604800 (clock - fetch_time)); [|lia].
Qed.

Lemma expired_entry_is_miss_witness :
  load_cached_data (fs world_stale) (2008 * 86400) "XLF" = None.
Proof.
  apply (expired_entry_is_miss (fs world_stale) (2008 * 86400) "XLF"
           (Some (bars 0 1100)) (2000 * 86400)).
  - vm_compute. reflexivity.
  - reflexivity.
Defined.

Lemma length_append (s t : string) :
  String.length (s +:+ t) = (String.length s + String.length t)%nat.
Proof. induction s as [|c s IH]; simpl; [done|]. by rewrite IH. Qed.

Lemma append_inj_r (s s' suffix : string) :
  s +:+ suffix = s' +:+ suffix → s = s'.
Proof.
  revert s'. induction s as [|c s IH]; intros [|c' s'] H; simpl in H.
  - done.
  - apply (f_equal String.length) in H.
    rewrite !length_append in H. simpl in H. lia.
  - apply (f_equal String.length) in H.
    rewrite !length_append in H. simpl in H. lia.
  - injection H as -> H. f_equal. by apply IH.
Qed.

Lemma cache_path_cases (ticker : string) :
  (∃ rest, ticker = String "/"%char rest
           ∧ cache_path ticker = ticker +:+ ".pkl")
  ∨ cache_path ticker = "./cache/" +:+ ticker +:+ ".pkl".
Proof.
  destruct ticker as [|c rest]; [by right|].
  destruct c as [[] [] [] [] [] [] [] []]; try (by right).
  left. by exists rest.
Qed.

(** The cache file of a plain name sits in the cache directory under that
    name. *)
Lemma cache_path_plain (ticker : string) :
  plain_name ticker = true →
  cache_path ticker = "./cache/" +:+ ticker +:+ ".pkl".
Proof.
  intros Hp. destruct (cache_path_cases ticker) as [(rest & -> & _)|H];
    [|done].
  simpl in Hp. discriminate.
Qed.

(** X8. For symbols that are plain file names (no ['/'] in them, so that
    each has its file in the cache directory under its own name), storing
    a frame for one symbol never changes what a load of another symbol
    gives, whether or not the store succeeds. *)
Theorem store_leaves_other_symbols
    (ticker other : string) (df : DataFrame) (w : world) (clock : Z) :
  plain_name ticker = true → plain_name other = true →
  ticker ≠ other →
  load_cached_data (fs (snd (save_cached_data ticker df w))) clock other
  = load_cached_data (fs w) clock other.
Proof.
  intros Hp Hp' Hne. unfold save_cached_data.
  destruct (df_empty df); [done|].
  destruct (writable w _); [|done]. simpl.
  unfold load_cached_data. rewrite lookup_insert_ne; [done|].
  rewrite (cache_path_plain _ Hp), (cache_path_plain _ Hp').
  intros H. simpl in H. injection H as H.
  change (ticker +:+ ".pkl" = other +:+ ".pkl") in H.
  by apply append_inj_r in H.
Qed.

Lemma store_leaves_other_symbols_witness :
  load_cached_data
    (fs (snd (save_cached_data "SPY" (bars 0 2000) world_stale)))
    (2000 * 86400) "XLF"
  = load_cached_data (fs world_stale) (2000 * 86400) "XLF".
Proof.
  apply (store_leaves_other_symbols "SPY" "XLF" (bars 0 2000) world_stale).
  - reflexivity.
  - reflexivity.
  - discriminate.
Defined.

(** X9. A store replaces the entry wholesale: after storing a non-empty
    frame the world is the same whether or not another frame had been
    stored for the symbol just before. *)
Theorem store_replaces_entry
    (ticker : string) (old new : DataFrame) (w : world) :
  df_empty new = false →
  snd (save_cached_data ticker new (snd (save_cached_data ticker old w)))
  = snd (save_cached_data ticker new w).
Proof.
  intros Hnew. unfold save_cached_data. rewrite Hnew.
  destruct (df_empty old); [done|].
  destruct (writable w (cache_path ticker)) eqn:Hcan; simpl;
    rewrite Hcan; [|done].
  by rewrite insert_insert_eq.
Qed.

Lemma store_replaces_entry_witness :
  snd (save_cached_data "XLF" (bars 0 2000) world_stale)
  = snd (save_cached_data "XLF" (bars 0 2000) world0).
Proof.
  apply (store_replaces_entry "XLF" (bars 0 1100) (bars 0 2000) world0).
  vm_compute. reflexivity.
Defined.

End CacheMore.

(* ===================================================================== *)
(** ** More on the fetcher *)
(* ===================================================================== *)

Module FetchMore.
Import Sector Scenario FetchFacts CacheMore Reply.

Section Network.
Variable net : nat → response.
Variable ticker : string.

(** How the loop over the attempts ends: after [k] failed attempts, each
    followed by its sleep, either the attempts are used up and the empty
    frame is returned, or the next reply is turned into the frame
    returned, which is cached unless it is empty. *)
Lemma attempts_outcome todo w :
  ∃ k df w',
    attempts net ticker todo w = (Ok df, w')
    ∧ (k ≤ length todo)%nat
    ∧ slept w' = slept w ++ map delay (take k todo)
    ∧ now w' = fold_left Z.add (map delay (take k todo)) (now w)
    ∧ ((k = length todo ∧ df = empty_frame ∧ fs w' = fs w
        ∧ requests w' = (requests w + k)%nat)
       ∨ ((k < length todo)%nat
          ∧ frame_of_reply (net (requests w + k)%nat) = Some df
          ∧ requests w' = S (requests w + k)
          ∧ fs w' = if df_empty df then fs w
                    else <[cache_path ticker := Pickled (Some df) (now w')]>
                           (fs w))).
Proof.
  revert w. induction todo as [|a todo IH]; intros w.
  - exists 0%nat, empty_frame, w. simpl.
    rewrite app_nil_r, Nat.add_0_r. split_and!; try done. by left.
  - simpl. unfold try_except.
    destruct (fails ticker w (net (requests w))) eqn:E.
    + rewrite attempt_body_fails by done.
      unfold mbind, M_bind, sleep.
      destruct (IH {| fs := fs (asked w); now := now (asked w) + delay a;
                      slept := slept (asked w) ++ [delay a];
                      requests := requests (asked w);
                      writable := writable (asked w) |})
        as (k & df & w' & -> & Hk & Hs & Hn & Hend).
      exists (S k), df, w'. simpl in *.
      split_and!; [done|lia|by rewrite Hs, <- app_assoc|done|].
      replace (requests w + S k)%nat with (S (requests w + k)) by lia.
      destruct Hend as [(-> & -> & Hf & Hr)|(Hlt & Hok & Hr & Hf)].
      * left. split_and!; [done|done|done|lia].
      * right. split_and!; [lia|done|lia|done].
    + unfold fails in E.
      destruct (frame_of_reply (net (requests w))) as [df|] eqn:Hdf;
        [|done].
      rewrite (attempt_body_returns net ticker w df Hdf).
      * eexists 0%nat, df, _. simpl. rewrite app_nil_r, Nat.add_0_r.
        split_and!; [done|lia|done|done|].
        right. split_and!; [lia|done..].
      * destruct (df_empty df); [by left|right].
        by destruct (writable w _).
Qed.

End Network.

Lemma delays_of_attempts k :
  (k ≤ 5)%nat →
  map delay (take k [1; 2; 3; 4; 5]) = take k [7; 10; 13; 16; 19]
  ∧ 0 ≤ fold_left Z.add (map delay (take k [1; 2; 3; 4; 5])) 0 ≤ 65.
Proof.
  intros Hk. destruct k as [|[|[|[|[|[|k]]]]]]; try lia; by vm_compute.
Qed.

Lemma fold_add_shift l a : fold_left Z.add l a = a + fold_left Z.add l 0.
Proof.
  revert a. induction l as [|x l IH]; intros a; simpl; [lia|].
  rewrite (IH (a + x)), (IH (0 + x)). lia.
Qed.

(** X10. Whatever the network answers and whatever the cache holds, a call
    returns normally having made at most five requests and slept at most
    65 seconds, the sleeps being the first few of 7, 10, 13, 16, 19. *)
Theorem fetch_stays_within_budget
    (net : nat → response) (ticker : string) (force_refresh : bool)
    (w : world) :
  ∃ df w' k,
    get_stock_data net ticker force_refresh w = (Ok df, w')
    ∧ (k ≤ 5)%nat
    ∧ slept w' = slept w ++ take k [7; 10; 13; 16; 19]
    ∧ now w ≤ now w' ≤ now w + 65
    ∧ (requests w ≤ requests w' ≤ requests w + 5)%nat.
Proof.
  unfold get_stock_data.
  destruct (if force_refresh then None else _) as [df|].
  { exists df, w, 0%nat. simpl. rewrite app_nil_r.
    split_and!; try done; lia. }
  destruct (attempts_outcome net ticker [1; 2; 3; 4; 5] w)
    as (k & df & w' & Heq & Hk & Hs & Hn & Hend).
  simpl in Hk. destruct (delays_of_attempts k Hk) as [Hd Hsum].
  exists df, w', k. rewrite Hd in Hs.
  rewrite fold_add_shift in Hn.
  split_and!; try done; try lia;
    destruct Hend as [(_ & _ & _ & ->)|(Hlt & _ & -> & _)]; simpl in *; lia.
Qed.

(** When the cache file cannot be written, a reply with bars is lost:
    the store raises inside the [try], the attempt counts as failed, and
    after five such attempts the empty frame is returned. *)
Lemma bars_lost_when_cache_locked :
  fails "XLF" locked_world two_bar_chart = true
  ∧ get_stock_data (fun _ => two_bar_chart) "XLF" true locked_world
    = (Ok empty_frame,
       {| fs := ∅; now := 2000 * 86400 + 65;
          slept := [7; 10; 13; 16; 19]; requests := 5;
          writable := fun _ => false |}).
Proof. split; vm_compute; reflexivity. Qed.

(** *** The shape of fetched frames *)

Lemma length_select {A B} (mask : list bool) (l : list A) (k : list B) :
  length l = length k → length (select mask l) = length (select mask k).
Proof.
  unfold select. rewrite !length_map.
  revert l k. induction mask as [|b mask IH]; intros [|x l] [|y k] H;
    try done.
  simpl in *. destruct b; simpl; [f_equal|]; apply IH; lia.
Qed.

Lemma select_sublist {A} (mask : list bool) (l : list A) :
  select mask l `sublist_of` l.
Proof.
  unfold select. revert l. induction mask as [|b mask IH]; intros [|x l];
    try done; [apply sublist_nil_l|].
  simpl. destruct b; simpl; by constructor.
Qed.

Lemma length_ffill_from prev col : length (ffill_from prev col) = length col.
Proof.
  revert prev. induction col as [|x col IH]; intros prev; simpl; [done|].
  by rewrite IH.
Qed.

Lemma as_column_length n c col : as_column n c = Some col → length col = n.
Proof.
  destruct c as [l|]; simpl.
  - destruct (Nat.eqb_spec (length l) n); [by intros [= <-]|].
    destruct l as [|x [|y l]]; try done.
    intros [= <-]. apply repeat_length.
  - intros [= <-]. apply repeat_length.
Qed.

Lemma five_columns_names {A} (o h l c v : A) (name : string) :
  is_Some ((<["Open" := o]> (<["High" := h]> (<["Low" := l]>
            (<["Close" := c]> (<["Volume" := v]> (∅ : gmap string A))))))
             !! name)
  ↔ name ∈ PRICE_COLUMNS.
Proof.
  rewrite !lookup_insert_is_Some', lookup_empty, is_Some_alt.
  unfold PRICE_COLUMNS. rewrite !elem_of_cons, elem_of_nil.
  intuition (subst; auto).
Qed.

Lemma five_columns_values {A} (o h l c v x : A) (name : string) :
  (<["Open" := o]> (<["High" := h]> (<["Low" := l]>
     (<["Close" := c]> (<["Volume" := v]> (∅ : gmap string A))))))
    !! name = Some x →
  x ∈ [o; h; l; c; v].
Proof.
  rewrite !lookup_insert_Some, lookup_empty.
  rewrite !elem_of_cons, elem_of_nil. intuition (subst; auto; done).
Qed.

(** The frame built from a reply is a price frame whose index is picked in
    order from the reply's timestamps. *)
Lemma frame_of_reply_shape ts quote adjclose df :
  frame_of_reply (Chart ts quote adjclose) = Some df →
  price_frame df ∧ index df `sublist_of` ts.
Proof.
  unfold frame_of_reply, build_frame. intros H.
  apply bind_Some in H as (df0 & H0 & [= <-]).
  destruct (forallb in_datetime_range ts); [|done].
  apply bind_Some in H0 as (o & Ho & H0).
  apply bind_Some in H0 as (h & Hh & H0).
  apply bind_Some in H0 as (l & Hl & H0).
  apply bind_Some in H0 as (c & Hc & H0).
  apply bind_Some in H0 as (v & Hv & [= <-]).
  apply as_column_length in Ho, Hh, Hl, Hc, Hv.
  split; [split|].
  - intros name col. unfold dropna_all, ffill_frame, len. simpl.
    rewrite !lookup_fmap. intros Hcol.
    apply fmap_Some in Hcol as (col1 & Hcol1 & ->).
    apply fmap_Some in Hcol1 as (col0 & Hcol0 & ->).
    apply length_select. unfold ffill. rewrite length_ffill_from.
    apply five_columns_values in Hcol0.
    rewrite !elem_of_cons, elem_of_nil in Hcol0.
    destruct Hcol0 as [->|[->|[->|[->|[->|[]]]]]]; done.
  - intros name. unfold dropna_all, ffill_frame. simpl.
    rewrite !lookup_fmap, !fmap_is_Some. apply five_columns_names.
  - apply select_sublist.
Qed.

Lemma price_frame_empty_frame : well_formed empty_frame.
Proof. intros name col. unfold empty_frame. simpl. by rewrite lookup_empty. Qed.

(** X11. If every frame in the cache is a well-formed frame with exactly
    the five price columns, then so is the frame [get_stock_data] returns,
    unless it is the empty no-data frame, and so is every frame in the
    cache afterwards. *)
Theorem fetch_returns_price_frames
    (net : nat → response) (ticker : string) (force_refresh : bool)
    (w w' : world) (df : DataFrame) :
  sound_cache (fs w) →
  get_stock_data net ticker force_refresh w = (Ok df, w') →
  (df = empty_frame ∨ price_frame df) ∧ sound_cache (fs w').
Proof.
  intros Hsound. unfold get_stock_data.
  destruct (if force_refresh then None else _) as [df'|] eqn:Eload.
  - intros [= <- <-]. split; [|done]. right.
    destruct force_refresh; [done|].
    unfold load_cached_data in Eload.
    destruct (fs w !! cache_path ticker) as [[|[df0|] ft]|] eqn:Ef;
      try done; [|by destruct (Qltb _ _)].
    assert (df' = df0) as ->.
    { repeat case_match; simplify_eq; done. }
    by eapply Hsound.
  - intros Hrun.
    destruct (attempts_outcome net ticker [1; 2; 3; 4; 5] w)
      as (k & df1 & w1 & Heq & _ & _ & _ & Hend).
    rewrite Hrun in Heq. injection Heq as <- <-.
    destruct Hend as [(_ & -> & -> & _)|(_ & Hdf & _ & Hfs)].
    + split; [by left|done].
    + destruct (net (requests w + k)%nat) as [| | |ts quote adjclose];
        try done.
      apply frame_of_reply_shape in Hdf as [Hdf _].
      split; [by right|]. rewrite Hfs.
      destruct (df_empty df); [done|].
      intros path df2 ft2 [[_ [= <- <-]]|[_ Hold]]%lookup_insert_Some;
        [done|by eapply Hsound].
Qed.

Lemma fetch_returns_price_frames_witness :
  (two_bar_frame = empty_frame ∨ price_frame two_bar_frame)
  ∧ sound_cache
      (<[cache_path "XLF" := Pickled (Some two_bar_frame) (2000 * 86400)]> ∅).
Proof.
  refine (fetch_returns_price_frames (fun _ => two_bar_chart) "XLF" true
            world0
            {| fs := <[cache_path "XLF" :=
                         Pickled (Some two_bar_frame) (2000 * 86400)]> ∅;
               now := 2000 * 86400; slept := []; requests := 1;
               writable := fun _ => true |}
            two_bar_frame _ _).
  - intros path df ft. simpl. by rewrite lookup_empty.
  - vm_compute. reflexivity.
Defined.

(** X12. Once a call has returned a frame that meets the cache's
    requirements at the clock it left (non-empty, 1100 rows or more, first
    row 1717 days old or more, last row 7 days old at most), a further
    unforced call at that clock returns the same frame without touching
    the network or sleeping, whatever the network would answer. *)
Theorem fetched_frame_is_served_from_cache
    (net net' : nat → response) (ticker : string) (force_refresh : bool)
    (w w' : world) (df : DataFrame) (first_date last_date : Z) :
  get_stock_data net ticker force_refresh w = (Ok df, w') →
  df_empty df = false → (1100 ≤ len df)%nat →
  index_min (index df) = Some first_date →
  index_max (index df) = Some last_date →
  1717 ≤ date_of (now w') - date_of first_date →
  date_of (now w') - date_of last_date ≤ 7 →
  get_stock_data net' ticker false w' = (Ok df, w').
Proof.
  intros Hrun He Hlen Hmin Hmax Hspan Hlag.
  assert (load_cached_data (fs w') (now w') ticker = Some df) as Hhit;
    [|by unfold get_stock_data; rewrite Hhit].
  unfold get_stock_data in Hrun.
  destruct (if force_refresh then None else _) as [df'|] eqn:Eload.
  - injection Hrun as <- <-. by destruct force_refresh.
  - destruct (attempts_outcome net ticker [1; 2; 3; 4; 5] w)
      as (k & df1 & w1 & Heq & _ & _ & _ & Hend).
    rewrite Hrun in Heq. injection Heq as <- <-.
    destruct Hend as [(_ & -> & _)|(_ & _ & _ & Hfs)]; [done|].
    rewrite He in Hfs.
    eapply load_hit_intro; try done.
    + rewrite Hfs. apply lookup_insert_eq.
    + lia.
Qed.

Lemma fetched_frame_is_served_from_cache_witness :
  get_stock_data (fun _ => TransportError) "XLF" false
    (snd (get_stock_data (fun _ => long_chart) "XLF" true world0))
  = (Ok (bars 0 2000),
     snd (get_stock_data (fun _ => long_chart) "XLF" true world0)).
Proof.
  apply (fetched_frame_is_served_from_cache
           (fun _ => long_chart) (fun _ => TransportError) "XLF" true
           world0
           (snd (get_stock_data (fun _ => long_chart) "XLF" true world0))
           (bars 0 2000) 0 (1999 * 86400)).
  - vm_compute. reflexivity.
  - vm_compute. reflexivity.
  - apply Nat.leb_le. vm_compute. reflexivity.
  - vm_compute. reflexivity.
  - vm_compute. reflexivity.
  - vm_compute. discriminate.
  - vm_compute. discriminate.
Defined.

End FetchMore.

(* ===================================================================== *)
(** ** More on the indicators and the classifier *)
(* ===================================================================== *)

Module IndicatorMore.
Import Sector Scenario IndicatorFacts Columns Reply.

Lemma well_formed_set_column name col df :
  well_formed df → length col = len df → well_formed (set_column name col df).
Proof.
  intros Hwf Hlen name' col'. unfold set_column, len. simpl.
  intros [[_ <-]|[_ H]]%lookup_insert_Some; [done|exact (Hwf _ _ H)].
Qed.

Lemma length_ffill col : length (ffill col) = length col.
Proof. apply FetchMore.length_ffill_from. Qed.

Lemma length_pct_change n col : length (pct_change n col) = length col.
Proof.
  unfold pct_change. rewrite length_zip_with, length_shift, length_ffill. lia.
Qed.

Lemma length_reindex idx col target out :
  reindex idx col target = Some out → length out = length target.
Proof.
  unfold reindex. case_bool_decide as Heq.
  - intros [= <-]. by rewrite length_resize, Heq.
  - case_bool_decide; [|done]. intros [= <-]. apply length_map.
Qed.

Lemma relative_columns_well_formed df close ret_col spy out :
  well_formed df → length close = len df → length ret_col = len df →
  relative_columns df close ret_col spy = Some out →
  well_formed out
  ∧ is_Some (columns out !! "Alpha") ∧ is_Some (columns out !! "Rel_Perf_3M").
Proof.
  unfold relative_columns. intros Hwf Hc Hr H.
  destruct spy as [spy|]; [|done].
  destruct (df_empty spy); [done|].
  destruct (columns spy !! "Close") as [spy_close|]; [|done]. simpl in H.
  destruct (reindex _ _ _) as [aligned0|] eqn:Er; [|done]. simpl in H.
  apply length_reindex in Er.
  destruct (any_notna _); [|done].
  injection H as <-.
  assert (length (zip_with fdiv close (ffill aligned0)) = len df) as Hrel.
  { rewrite length_zip_with, length_ffill, Er, Hc. unfold len. lia. }
  split_and!.
  - apply well_formed_set_column; [apply well_formed_set_column;
      [by apply well_formed_set_column|]|].
    + by rewrite length_map, length_pct_change.
    + unfold fillna. rewrite length_map, length_zip_with, length_map,
        length_pct_change, length_ffill, Er, Hr. unfold len. simpl. lia.
  - simpl. rewrite lookup_insert_eq. by eexists.
  - simpl. rewrite lookup_insert_ne by done. rewrite lookup_insert_eq.
    by eexists.
Qed.

(** X13. On a well-formed frame with a Close column, whatever the
    benchmark, [calculate_indicators] returns a well-formed frame on the
    same index that has all seven indicator columns and keeps every
    column of the input that it does not compute. *)
Theorem indicators_frame_is_well_formed
    (df : DataFrame) (spy_df : option DataFrame) (close : list fl) :
  well_formed df → columns df !! "Close" = Some close →
  ∃ out,
    calculate_indicators df spy_df = Some out
    ∧ index out = index df
    ∧ well_formed out
    ∧ (∀ name, name ∈ INDICATOR_COLUMNS → is_Some (columns out !! name))
    ∧ (∀ name, name ∉ INDICATOR_COLUMNS → name ≠ "Rel_Line" →
         columns out !! name = columns df !! name).
Proof.
  intros Hwf Hclose.
  pose proof (Hwf _ _ Hclose) as Hlen.
  destruct (calculate_indicators_rsi df spy_df close Hclose)
    as (out & Hout & Hidx & _).
  exists out. split; [done|]. split; [done|].
  unfold calculate_indicators in Hout. rewrite Hclose in Hout. simpl in Hout.
  set (df5 := set_column "RSI" _ _) in Hout.
  assert (well_formed df5) as Hwf5.
  { repeat apply well_formed_set_column; try done.
    - by rewrite length_rolling_mean.
    - by rewrite length_rolling_mean.
    - by rewrite length_rolling_mean.
    - by rewrite length_map, length_pct_change.
    - by rewrite length_rsi_column. }
  assert (∀ name, name ∈ ["SMA_20"; "SMA_50"; "SMA_200"; "Return"; "RSI"] →
            is_Some (columns df5 !! name)) as Hfive.
  { intros name Hn. unfold df5. simpl.
    rewrite !lookup_insert_is_Some'.
    rewrite !elem_of_cons, elem_of_nil in Hn. intuition (subst; auto). }
  assert (∀ name, name ∉ INDICATOR_COLUMNS →
            columns df5 !! name = columns df !! name) as Hkeep.
  { intros name Hn. unfold df5. simpl.
    unfold INDICATOR_COLUMNS in Hn.
    rewrite !not_elem_of_cons in Hn.
    destruct Hn as (? & ? & ? & ? & ? & _).
    by rewrite !lookup_insert_ne. }
  assert (len df5 = len df) as Hlen5 by done.
  clearbody df5. rewrite <- Hlen5 in Hlen.
  destruct (relative_columns df5 close _ spy_df) as [out'|] eqn:E;
    injection Hout as <-.
  - destruct (relative_columns_well_formed _ _ _ _ _ Hwf5 Hlen
                ltac:(by rewrite length_map, length_pct_change) E)
      as (Hwfo & Ha & Hr).
    split_and!; [done| |].
    + intros name Hn. unfold INDICATOR_COLUMNS in Hn.
      rewrite !elem_of_cons, elem_of_nil in Hn.
      destruct Hn as [->|[->|[->|[->|[->|[->|[->|[]]]]]]]]; try done;
        match goal with
        | |- is_Some (columns _ !! ?n) =>
            destruct (relative_columns_frame _ _ _ _ _ n E) as [-> _];
            [done..|apply Hfive; rewrite !elem_of_cons; auto 10]
        end.
    + intros name Hn Hrl. pose proof Hn as Hn'.
      unfold INDICATOR_COLUMNS in Hn'. rewrite !not_elem_of_cons in Hn'.
      destruct Hn' as (_ & _ & _ & _ & _ & ? & ? & _).
      destruct (relative_columns_frame _ _ _ _ _ name E) as [-> _];
        try done. by apply Hkeep.
  - split_and!.
    + unfold set_scalar.
      apply well_formed_set_column;
        [apply well_formed_set_column; [exact Hwf5|]|]; apply repeat_length.
    + intros name Hn. unfold set_scalar, set_column. simpl.
      rewrite !lookup_insert_is_Some'.
      unfold INDICATOR_COLUMNS in Hn.
      rewrite !elem_of_cons, elem_of_nil in Hn.
      destruct Hn as [->|[->|[->|[->|[->|[->|[->|[]]]]]]]]; auto;
        right; right; apply Hfive; rewrite !elem_of_cons; auto 10.
    + intros name Hn _. pose proof Hn as Hn'.
      unfold INDICATOR_COLUMNS in Hn'. rewrite !not_elem_of_cons in Hn'.
      destruct Hn' as (_ & _ & _ & _ & _ & ? & ? & _).
      unfold set_scalar, set_column. simpl.
      rewrite !lookup_insert_ne by done. by apply Hkeep.
Qed.

Lemma bars_price_frame first_day n : price_frame (bars first_day n).
Proof.
  split.
  - intros name col Hcol. unfold bars in *. simpl in *.
    apply FetchMore.five_columns_values in Hcol.
    rewrite !elem_of_cons, elem_of_nil in Hcol. unfold len. simpl.
    rewrite length_map, length_seq.
    destruct Hcol as [->|[->|[->|[->|[->|[]]]]]]; apply repeat_length.
  - intros name. apply FetchMore.five_columns_names.
Qed.

Lemma indicators_frame_is_well_formed_witness :
  ∃ out,
    calculate_indicators (bars 0 20) (Some (bars 0 20)) = Some out
    ∧ index out = index (bars 0 20)
    ∧ well_formed out
    ∧ (∀ name, name ∈ INDICATOR_COLUMNS → is_Some (columns out !! name))
    ∧ (∀ name, name ∉ INDICATOR_COLUMNS → name ≠ "Rel_Line" →
         columns out !! name = columns (bars 0 20) !! name).
Proof.
  apply (indicators_frame_is_well_formed (bars 0 20) (Some (bars 0 20))
           (repeat (Fin 100) 20)).
  - apply bars_price_frame.
  - vm_compute. reflexivity.
Defined.

(** *** Moving averages stay within the range of the closes *)

Lemma fsum_within lo hi vals :
  Forall (within lo hi) vals →
  ∀ a, ∃ s, fold_left fadd vals (Fin a) = Fin s
    ∧ (a + inject_Z (Z.of_nat (length vals)) * lo <= s)%Q
    ∧ (s <= a + inject_Z (Z.of_nat (length vals)) * hi)%Q.
Proof.
  induction 1 as [|x vals (q & -> & Hlo & Hhi) _ IH]; intros a.
  - exists a. simpl. split_and!; [done|ring_simplify; lra..].
  - destruct (IH (a + q)%Q) as (s & Hs & Hl & Hh).
    exists s. split; [done|]. simpl length.
    rewrite Nat2Z.inj_succ, <- Z.add_1_r, inject_Z_plus.
    change (inject_Z 1) with 1%Q.
    split; [eapply Qle_trans; [|exact Hl]|eapply Qle_trans; [exact Hh|]];
      ring_simplify; lra.
Qed.

Lemma mean_within lo hi vals :
  vals ≠ [] → Forall (within lo hi) vals →
  within lo hi (fdiv (fsum vals) (of_Z (Z.of_nat (length vals)))).
Proof.
  intros Hne Hall.
  destruct (fsum_within lo hi vals Hall 0) as (s & Hs & Hl & Hh).
  unfold fsum, of_Z. rewrite Hs.
  set (n := inject_Z (Z.of_nat (length vals))) in *.
  assert (0 < n)%Q as Hn.
  { unfold n. rewrite <- (Zlt_Qlt 0).
    destruct vals; [by destruct Hne|]. simpl. lia. }
  simpl. destruct (Qeq_bool n 0) eqn:E.
  { apply Qeq_bool_eq in E. rewrite E in Hn. by apply Qlt_irrefl in Hn. }
  exists (s / n)%Q. split_and!; [done| |].
  - apply Qle_shift_div_l; [done|]. rewrite Qmult_comm. lra.
  - apply Qle_shift_div_r; [done|]. rewrite Qmult_comm. lra.
Qed.

Lemma within_notna lo hi x : within lo hi x → notna x = true.
Proof. by intros (q & -> & _). Qed.

Lemma filter_all {A} (f : A → bool) l :
  Forall (fun x => f x = true) l → List.filter f l = l.
Proof.
  induction 1 as [|x l Hx _ IH]; [done|]. simpl. by rewrite Hx, IH.
Qed.

Lemma rolling_mean_within w lo hi col :
  (0 < w)%nat → Forall (within lo hi) col →
  Forall (within lo hi) (rolling_mean w 1 col).
Proof.
  intros Hw Hcol. apply Forall_lookup. intros i x Hx.
  assert (i < length col)%nat as Hi.
  { apply lookup_lt_Some in Hx. by rewrite length_rolling_mean in Hx. }
  rewrite lookup_rolling_mean in Hx by done. injection Hx as <-.
  assert (Forall (within lo hi) (window w col i)) as Hwin.
  { apply Forall_forall. intros x Hin.
    rewrite Forall_forall in Hcol. apply Hcol.
    apply list_elem_of_In. eapply window_subset. by apply list_elem_of_In. }
  rewrite filter_all
    by (eapply Forall_impl; [exact Hwin|apply within_notna]).
  assert (window w col i ≠ []) as Hne.
  { intros E. apply (f_equal length) in E. unfold window in E.
    rewrite length_drop, length_take in E.
    change (length (@nil fl)) with 0%nat in E. lia. }
  destruct (Nat.ltb_spec (length (window w col i)) 1) as [Hl|_].
  { destruct (window w col i); [done|simpl in Hl; lia]. }
  by apply mean_within.
Qed.

Lemma calculate_indicators_averages df spy close :
  columns df !! "Close" = Some close →
  ∃ out,
    calculate_indicators df spy = Some out
    ∧ columns out !! "SMA_20" = Some (rolling_mean 20 1 close)
    ∧ columns out !! "SMA_50" = Some (rolling_mean 50 1 close)
    ∧ columns out !! "SMA_200" = Some (rolling_mean 200 1 close)
    ∧ columns out !! "Return"
      = Some (map (fun x => fmul x (Fin 100)) (pct_change 1 close)).
Proof.
  intros Hclose. unfold calculate_indicators. rewrite Hclose. simpl.
  destruct (relative_columns _ _ _ _) as [out|] eqn:E.
  - exists out. split; [done|].
    split_and!;
      match goal with
      | |- columns _ !! ?n = _ =>
          destruct (relative_columns_frame _ _ _ _ _ n E) as [-> _];
          [done..|]
      end; simpl; rewrite ?lookup_insert_ne by done;
      by rewrite lookup_insert_eq.
  - eexists. split; [done|]. simpl.
    split_and!; rewrite ?lookup_insert_ne by done;
      by rewrite lookup_insert_eq.
Qed.

(** X14. If every close is a finite value of magnitude at most 10^300 (so
    that no sum of 200 closes comes near the end of the float range), each
    of the three moving averages has a finite value on every row, the
    first rows included: with [min_periods=1] there is no warm-up gap. *)
Theorem moving_averages_have_no_gap
    (df : DataFrame) (spy_df : option DataFrame) (close : list fl) :
  columns df !! "Close" = Some close →
  Forall (within (- MAX_CLOSE) MAX_CLOSE) close →
  ∃ out sma20 sma50 sma200,
    calculate_indicators df spy_df = Some out
    ∧ columns out !! "SMA_20" = Some sma20
    ∧ columns out !! "SMA_50" = Some sma50
    ∧ columns out !! "SMA_200" = Some sma200
    ∧ length sma20 = length close ∧ length sma50 = length close
    ∧ length sma200 = length close
    ∧ Forall finite sma20 ∧ Forall finite sma50 ∧ Forall finite sma200.
Proof.
  intros Hclose Hall.
  destruct (calculate_indicators_averages df spy_df close Hclose)
    as (out & Hout & H20 & H50 & H200 & _).
  exists out, (rolling_mean 20 1 close), (rolling_mean 50 1 close),
    (rolling_mean 200 1 close).
  rewrite !length_rolling_mean.
  split_and!; try done;
    (eapply Forall_impl;
     [apply (rolling_mean_within _ (- MAX_CLOSE) MAX_CLOSE); [lia|done]
     |intros x (q & -> & _); by exists q]).
Qed.

Lemma moving_averages_have_no_gap_witness :
  ∃ out sma20 sma50 sma200,
    calculate_indicators two_bar_frame None = Some out
    ∧ columns out !! "SMA_20" = Some sma20
    ∧ columns out !! "SMA_50" = Some sma50
    ∧ columns out !! "SMA_200" = Some sma200
    ∧ length sma20 = length [Fin 1; Fin 2]
    ∧ length sma50 = length [Fin 1; Fin 2]
    ∧ length sma200 = length [Fin 1; Fin 2]
    ∧ Forall finite sma20 ∧ Forall finite sma50 ∧ Forall finite sma200.
Proof.
  apply (moving_averages_have_no_gap two_bar_frame None [Fin 1; Fin 2]).
  - vm_compute. reflexivity.
  - repeat constructor; eexists; (split; [reflexivity|]);
      split; vm_compute; discriminate.
Defined.

(** *** Alpha is always a number *)

Lemma relative_columns_alpha df close ret_col spy out :
  relative_columns df close ret_col spy = Some out →
  ∃ raw_alpha, columns out !! "Alpha" = Some (fillna (Fin 0) raw_alpha).
Proof.
  unfold relative_columns. intros H.
  destruct spy as [spy|]; [|done].
  destruct (df_empty spy); [done|].
  destruct (columns spy !! "Close") as [spy_close|]; [|done]. simpl in H.
  destruct (reindex _ _ _) as [aligned0|]; [|done]. simpl in H.
  destruct (any_notna _); [|done].
  injection H as <-. simpl. rewrite lookup_insert_eq. by eexists.
Qed.

Lemma fillna_notna v col :
  isnan v = false → Forall (fun x => isnan x = false) (fillna v col).
Proof.
  intros Hv. unfold fillna. apply Forall_map, Forall_forall. intros x _.
  by destruct (isnan x) eqn:E.
Qed.

(** X15. Whatever the frame and the benchmark, the Alpha column that
    [calculate_indicators] returns holds no NaN. *)
Theorem alpha_is_never_nan
    (df out : DataFrame) (spy_df : option DataFrame) :
  calculate_indicators df spy_df = Some out →
  ∃ alpha, columns out !! "Alpha" = Some alpha
           ∧ Forall (fun v => isnan v = false) alpha.
Proof.
  unfold calculate_indicators. intros H.
  destruct (columns df !! "Close") as [close|]; [|done]. simpl in H.
  destruct (relative_columns _ _ _ _) as [out'|] eqn:E; injection H as <-.
  - destruct (relative_columns_alpha _ _ _ _ _ E) as (a & ->).
    eexists. split; [done|]. by apply fillna_notna.
  - eexists. simpl. split.
    + rewrite lookup_insert_ne by done. by rewrite lookup_insert_eq.
    + apply Forall_forall. intros x Hx%list_elem_of_In.
      by apply repeat_spec in Hx as ->.
Qed.

Lemma alpha_is_never_nan_witness :
  ∃ alpha,
    columns (default empty_frame
               (calculate_indicators two_bar_frame (Some two_bar_frame)))
      !! "Alpha" = Some alpha
    ∧ Forall (fun v => isnan v = false) alpha.
Proof.
  apply (alpha_is_never_nan two_bar_frame _ (Some two_bar_frame)).
  vm_compute. reflexivity.
Defined.

(** *** The decision table of the classifier *)

Lemma flt_asym a b : flt a b = true → flt b a = false.
Proof.
  destruct a as [| |x|], b as [| |y|]; simpl; try done.
  intros H. apply Qltb_ge, Qlt_le_weak. by apply Qltb_lt.
Qed.

(** X16. On a non-empty frame whose last row has a close and a 50-row
    average, the label is decided by the two strict comparisons alone:
    LEADING when price is above the average and relative performance above
    zero, WEAKENING when above and below, IMPROVING when below and above,
    LAGGING when below and below, and Neutral exactly when the price is
    neither above nor below the average or the relative performance
    neither above nor below zero (equal, or NaN). *)
Theorem trend_decision_table (df : DataFrame) (price sma : fl) :
  df_empty df = false →
  cur df "Close" = Some price → cur df SMA_KEY = Some sma →
  (determine_trend_state df = Some ("LEADING", "#26a69a")
   ↔ fgt price sma = true
     ∧ fgt (default (Fin 0) (cur df "Rel_Perf_3M")) (Fin 0) = true)
  ∧ (determine_trend_state df = Some ("WEAKENING", "#F7DC6F")
     ↔ fgt price sma = true
       ∧ flt (default (Fin 0) (cur df "Rel_Perf_3M")) (Fin 0) = true)
  ∧ (determine_trend_state df = Some ("IMPROVING", "#45B7D1")
     ↔ flt price sma = true
       ∧ fgt (default (Fin 0) (cur df "Rel_Perf_3M")) (Fin 0) = true)
  ∧ (determine_trend_state df = Some ("LAGGING", "#ef5350")
     ↔ flt price sma = true
       ∧ flt (default (Fin 0) (cur df "Rel_Perf_3M")) (Fin 0) = true)
  ∧ (determine_trend_state df = Some NEUTRAL
     ↔ (fgt price sma = false ∧ flt price sma = false)
       ∨ (fgt (default (Fin 0) (cur df "Rel_Perf_3M")) (Fin 0) = false
          ∧ flt (default (Fin 0) (cur df "Rel_Perf_3M")) (Fin 0) = false)).
Proof.
  intros Hne Hp Hs. unfold determine_trend_state.
  set (rel := default (Fin 0) (cur df "Rel_Perf_3M")) in *.
  rewrite Hne, Hp, Hs. cbn -[flt fgt]. unfold fgt, NEUTRAL.
  pose proof (flt_asym sma price) as A1.
  pose proof (flt_asym price sma) as A2.
  pose proof (flt_asym (Fin 0) rel) as A3.
  pose proof (flt_asym rel (Fin 0)) as A4.
  destruct (flt sma price), (flt price sma), (flt (Fin 0) rel),
    (flt rel (Fin 0)); simpl;
    try (by specialize (A1 eq_refl)); try (by specialize (A2 eq_refl));
    try (by specialize (A3 eq_refl)); try (by specialize (A4 eq_refl));
    clear; intuition congruence.
Qed.

Lemma trend_decision_table_witness :
  determine_trend_state boundary_frame = Some NEUTRAL.
Proof.
  apply (proj2 (proj2 (proj2 (proj2
           (trend_decision_table boundary_frame (Fin 5) (Fin 5)
              ltac:(vm_compute; reflexivity) ltac:(vm_compute; reflexivity)
              ltac:(vm_compute; reflexivity)))))).
  left. split; reflexivity.
Defined.

(** *** A symbol measured against itself *)

Lemma ffill_from_idem prev col :
  ffill_from prev (ffill_from prev col) = ffill_from prev col.
Proof.
  revert prev. induction col as [|x col IH]; intros prev; [done|].
  simpl. destruct (isnan x) eqn:Ex.
  - destruct (isnan prev); by rewrite IH.
  - rewrite Ex. by rewrite IH.
Qed.

Lemma pct_change_ffill n col : pct_change n (ffill col) = pct_change n col.
Proof. unfold pct_change, ffill. by rewrite ffill_from_idem. Qed.

Lemma Forall_ffill_from (P : fl → Prop) prev col :
  P prev → Forall P col → Forall P (ffill_from prev col).
Proof.
  intros Hp Hcol. revert prev Hp.
  induction Hcol as [|x col Hx _ IH]; intros prev Hp; simpl; [done|].
  destruct (isnan x); constructor; auto.
Qed.

Lemma Forall_shift (P : fl → Prop) n col :
  P NaN → Forall P col → Forall P (shift n col).
Proof.
  intros Hn Hcol. unfold shift. apply Forall_take, Forall_app. split; [|done].
  apply Forall_forall. intros x Hx%list_elem_of_In.
  by apply repeat_spec in Hx as ->.
Qed.

Lemma Forall_zip_with_both {A B C} (f : A → B → C)
    (P : A → Prop) (Q : B → Prop) (R : C → Prop) l k :
  (∀ x y, P x → Q y → R (f x y)) →
  Forall P l → Forall Q k → Forall R (zip_with f l k).
Proof.
  intros Hf Hl. revert k. induction Hl as [|x l Hx _ IH]; intros k Hk;
    [done|].
  destruct Hk as [|y k Hy Hk]; [done|]. simpl. constructor; auto.
Qed.

Lemma fsub_self x : nan_or 0 (fsub x x).
Proof.
  destruct x as [| |q|]; [by left..| |by left].
  right. exists (q + - q)%Q. split; [done|]. ring.
Qed.

Lemma zip_with_self {A C} (f : A → A → C) (R : C → Prop) l :
  (∀ x, R (f x x)) → Forall R (zip_with f l l).
Proof. intros Hf. induction l; simpl; constructor; auto. Qed.

Lemma fdiv_self x : nan_or 1 (fdiv x x).
Proof.
  destruct x as [| |q|]; [by left..| |by left]. simpl.
  destruct (Qeq_bool q 0) eqn:E.
  - left. apply Qeq_bool_eq in E. apply Qeq_alt in E. by rewrite E.
  - right. exists (q / q)%Q. split; [done|].
    apply Qeq_bool_neq in E. by field.
Qed.

(** A column divided by its padded self holds ones and NaNs. *)
Lemma div_by_padded_self prev col :
  Forall (nan_or 1) (zip_with fdiv col (ffill_from prev col)).
Proof.
  revert prev. induction col as [|x col IH]; intros prev; [done|].
  simpl. constructor; [|apply IH].
  destruct (isnan x) eqn:Ex; [|apply fdiv_self].
  destruct x; try done. by left.
Qed.

Lemma pct_of_ones x y :
  nan_or 1 x → nan_or 1 y →
  nan_or 0 (fmul (fsub (fdiv x y) (Fin 1)) (Fin 100)).
Proof.
  intros [->|(p & -> & Hp)] [->|(q & -> & Hq)]; try by left.
  right. unfold fdiv.
  assert (Qeq_bool q 0 = false) as ->.
  { destruct (Qeq_bool q 0) eqn:E; [|done].
    apply Qeq_bool_eq in E. lra. }
  exists ((p / q + - 1) * 100)%Q. split; [reflexivity|].
  rewrite Hp, Hq. reflexivity.
Qed.

Lemma fillna_zero_flat col :
  Forall (nan_or 0) col → Forall (within 0 0) (fillna (Fin 0) col).
Proof.
  intros H. unfold fillna. apply Forall_map.
  eapply Forall_impl; [exact H|].
  intros x [->|(q & -> & Hq)]; simpl.
  - exists 0%Q. split_and!; [done|apply Qle_refl..].
  - exists q. split_and!; [done|lra..].
Qed.

Lemma relative_columns_inv df close ret_col spy out :
  relative_columns df close ret_col (Some spy) = Some out →
  ∃ spy_close aligned0,
    columns spy !! "Close" = Some spy_close
    ∧ reindex (index spy) spy_close (index df) = Some aligned0
    ∧ columns out !! "Alpha"
      = Some (fillna (Fin 0)
                (zip_with fsub ret_col
                   (map (fun x => fmul x (Fin 100))
                      (pct_change 1 (ffill aligned0)))))
    ∧ columns out !! "Rel_Perf_3M"
      = Some (map (fun x => fmul x (Fin 100))
                (pct_change 63 (zip_with fdiv close (ffill aligned0)))).
Proof.
  unfold relative_columns. intros H.
  destruct (df_empty spy); [done|].
  apply bind_Some in H as (spy_close & Hclose & H).
  apply bind_Some in H as (aligned0 & Hal & H).
  destruct (any_notna _); [|done].
  injection H as <-. exists spy_close, aligned0.
  split; [done|]. split; [done|]. simpl. split.
  - by rewrite lookup_insert_eq.
  - rewrite lookup_insert_ne by done. by rewrite lookup_insert_eq.
Qed.

Lemma trend_neutral_when_rel_flat df price sma :
  df_empty df = false →
  cur df "Close" = Some price → cur df SMA_KEY = Some sma →
  nan_or 0 (default (Fin 0) (cur df "Rel_Perf_3M")) →
  determine_trend_state df = Some NEUTRAL.
Proof.
  intros Hne Hp Hs Hrel. unfold determine_trend_state.
  set (rel := default (Fin 0) (cur df "Rel_Perf_3M")) in *.
  rewrite Hne, Hp, Hs. cbn -[flt fgt]. unfold fgt.
  assert (flt (Fin 0) rel = false ∧ flt rel (Fin 0) = false) as [-> ->].
  { destruct Hrel as [->|(q & -> & Hq)]; [done|]. simpl.
    split; apply Qltb_ge; rewrite Hq; apply Qle_refl. }
  by rewrite !andb_false_r.
Qed.

Lemma last_of_nonempty (col : list fl) n :
  length col = n → n ≠ 0%nat → ∃ x, last col = Some x.
Proof.
  intros Hlen Hn. apply last_is_Some. intros ->. simpl in Hlen. lia.
Qed.

Lemma trend_neutral_of_flat_column out close sma_col rel :
  columns out !! "Close" = Some close →
  columns out !! SMA_KEY = Some sma_col →
  length close = len out → length sma_col = len out →
  columns out !! "Rel_Perf_3M" = Some rel →
  Forall (nan_or 0) rel →
  determine_trend_state out = Some NEUTRAL.
Proof.
  intros Hc Hs Hlc Hls Hr Hflat.
  destruct (df_empty out) eqn:He.
  { unfold determine_trend_state. by rewrite He. }
  assert (len out ≠ 0%nat) as Hn.
  { unfold df_empty in He. apply orb_false_iff in He as [He _].
    by apply Nat.eqb_neq in He. }
  destruct (last_of_nonempty close _ Hlc Hn) as [price Hprice].
  destruct (last_of_nonempty sma_col _ Hls Hn) as [sma Hsma].
  apply (trend_neutral_when_rel_flat out price sma He).
  - unfold cur. by rewrite Hc.
  - unfold cur. by rewrite Hs.
  - unfold cur. rewrite Hr. simpl.
    destruct (last rel) as [v|] eqn:Ev; simpl.
    + apply last_Some_elem_of in Ev.
      by apply (proj1 (Forall_forall _ _) Hflat).
    + right. exists 0%Q. split; [done|]. reflexivity.
Qed.

Lemma flat_repeat n : Forall (nan_or 0) (repeat (Fin 0) n).
Proof.
  apply Forall_forall. intros x Hx%list_elem_of_In.
  apply repeat_spec in Hx as ->. right. exists 0%Q. split; [done|].
  reflexivity.
Qed.

Lemma zero_repeat n : Forall (within 0 0) (repeat (Fin 0) n).
Proof.
  apply Forall_forall. intros x Hx%list_elem_of_In.
  apply repeat_spec in Hx as ->. exists 0%Q.
  split_and!; [done|apply Qle_refl..].
Qed.

Lemma self_benchmark_columns df close :
  well_formed df → columns df !! "Close" = Some close →
  ∃ out alpha rel,
    calculate_indicators df (Some df) = Some out
    ∧ columns out !! "Alpha" = Some alpha ∧ Forall (within 0 0) alpha
    ∧ columns out !! "Rel_Perf_3M" = Some rel ∧ Forall (nan_or 0) rel.
Proof.
  intros Hwf Hclose. unfold calculate_indicators. rewrite Hclose.
  cbn -[relative_columns].
  destruct (relative_columns _ _ _ _) as [out|] eqn:E.
  - destruct (relative_columns_inv _ _ _ _ _ E)
      as (spy_close & aligned0 & Hsc & Hal & Halpha & Hrel).
    rewrite Hclose in Hsc. injection Hsc as <-.
    assert (length close = length (index df)) as Hlen
      by apply (Hwf "Close" close Hclose).
    unfold reindex in Hal. simpl in Hal.
    rewrite bool_decide_eq_true_2 in Hal by done.
    rewrite <- Hlen, resize_all in Hal. injection Hal as <-.
    rewrite pct_change_ffill in Halpha.
    eexists out, _, _. split; [done|]. split; [exact Halpha|].
    split; [|split; [exact Hrel|]].
    + apply fillna_zero_flat, zip_with_self, fsub_self.
    + apply Forall_map. unfold pct_change.
      assert (Forall (nan_or 1)
                (ffill (zip_with fdiv close (ffill close)))) as Hones.
      { apply Forall_ffill_from; [by left|]. apply div_by_padded_self. }
      apply (Forall_zip_with_both _ (nan_or 1) (nan_or 1)); [|done|].
      * intros x y. apply pct_of_ones.
      * apply Forall_shift; [by left|done].
  - eexists _, _, _. split; [done|]. simpl.
    split; [by rewrite lookup_insert_ne, lookup_insert_eq|].
    split; [apply zero_repeat|].
    split; [by rewrite lookup_insert_eq|]. apply flat_repeat.
Qed.

(** X17. A symbol measured against itself is flat: when the benchmark
    frame is the frame itself, [calculate_indicators] returns an Alpha
    column of zeros and a Rel_Perf_3M column holding only zeros and NaN,
    and [determine_trend_state] classifies the result as Neutral. *)
Theorem own_benchmark_is_neutral (df : DataFrame) (close : list fl) :
  well_formed df → columns df !! "Close" = Some close →
  ∃ out alpha rel,
    calculate_indicators df (Some df) = Some out
    ∧ columns out !! "Alpha" = Some alpha ∧ Forall (within 0 0) alpha
    ∧ columns out !! "Rel_Perf_3M" = Some rel ∧ Forall (nan_or 0) rel
    ∧ determine_trend_state out = Some NEUTRAL.
Proof.
  intros Hwf Hclose.
  destruct (self_benchmark_columns df close Hwf Hclose)
    as (out & alpha & rel & Hout & Ha & Hzero & Hr & Hflat).
  exists out, alpha, rel. split_and!; try done.
  destruct (calculate_indicators_rsi df (Some df) close Hclose)
    as (out' & Hout' & Hidx & _ & Hsma & Hc).
  rewrite Hout in Hout'. injection Hout' as <-.
  apply (trend_neutral_of_flat_column out close _ rel Hc Hsma); try done.
  - unfold len. rewrite Hidx. by apply (Hwf "Close").
  - rewrite length_rolling_mean. unfold len. rewrite Hidx.
    by apply (Hwf "Close").
Qed.

Lemma own_benchmark_is_neutral_witness :
  ∃ out alpha rel,
    calculate_indicators (bars 0 300) (Some (bars 0 300)) = Some out
    ∧ columns out !! "Alpha" = Some alpha ∧ Forall (within 0 0) alpha
    ∧ columns out !! "Rel_Perf_3M" = Some rel ∧ Forall (nan_or 0) rel
    ∧ determine_trend_state out = Some NEUTRAL.
Proof.
  refine (own_benchmark_is_neutral (bars 0 300)
            (default [] (columns (bars 0 300) !! "Close")) _ _).
  - apply bars_price_frame.
  - vm_compute. reflexivity.
Defined.

End IndicatorMore.

(* ===================================================================== *)
(** ** The RSI of one-way series *)
(* ===================================================================== *)

Module RsiMore.
Import Sector Bounds Scenario IndicatorFacts Columns Reply IndicatorMore.

Lemma diff_steps c cs : diff (c :: cs) = NaN :: steps c cs.
Proof.
  unfold diff, shift. simpl. f_equal; [by destruct c|].
  revert c. induction cs as [|x tl IH]; intros c; [done|].
  simpl. f_equal. apply IH.
Qed.

Lemma steps_climb p cs :
  climbs_from p cs →
  Forall (fun d => ∃ q, d = Fin q ∧ (0 <= q)%Q) (steps (Fin p) cs).
Proof.
  revert p. induction cs as [|x tl IH]; intros p H; [constructor|].
  destruct x as [| |q|]; try done. destruct H as [Hle H].
  simpl. constructor; [|by apply IH].
  eexists. split; [reflexivity|]. lra.
Qed.

(** *** A series that never falls *)

Lemma Qltb_false x y : Qltb x y = false → (y <= x)%Q.
Proof. intros E. apply Qnot_lt_le. intros H%Qltb_lt. congruence. Qed.

Lemma loss_of_rise d :
  (∃ q, d = Fin q ∧ (0 <= q)%Q) →
  nan_or 0 (fneg (if fgt d (Fin 0) then Fin 0 else d)).
Proof.
  intros (q & -> & Hq). right. unfold fgt. simpl.
  destruct (Qltb 0 q) eqn:E; simpl.
  - exists (- 0)%Q. split; [done|]. reflexivity.
  - exists (- q)%Q. split; [done|]. apply Qltb_false in E. lra.
Qed.

Lemma Forall_filter_bool {A} (P : A → Prop) (f : A → bool) l :
  Forall P l → Forall (fun x => P x ∧ f x = true) (List.filter f l).
Proof.
  induction 1 as [|x l Hx _ IH]; simpl; [constructor|].
  destruct (f x) eqn:E; [constructor|]; auto.
Qed.

Lemma Forall_window (P : fl → Prop) w col i :
  Forall P col → Forall P (window w col i).
Proof. intros H. unfold window. by apply Forall_drop, Forall_take. Qed.

Lemma rolling_mean_flat w m col :
  Forall (nan_or 0) col → Forall (nan_or 0) (rolling_mean w m col).
Proof.
  intros Hcol. apply Forall_lookup. intros i x Hx.
  assert (i < length col)%nat as Hi.
  { apply lookup_lt_Some in Hx. by rewrite length_rolling_mean in Hx. }
  rewrite lookup_rolling_mean in Hx by done. injection Hx as <-.
  set (obs := List.filter notna (window w col i)).
  assert (Forall (within 0 0) obs) as Hobs.
  { eapply Forall_impl;
      [apply Forall_filter_bool, (Forall_window _ w col i Hcol)|].
    intros x [[->|(q & -> & Hq)] Hx]; [done|].
    exists q. split_and!; [done|lra..]. }
  destruct (length obs <? m)%nat; [by left|].
  destruct obs as [|o obs'] eqn:Eobs; [by left|].
  destruct (mean_within 0 0 (o :: obs')) as (q & -> & Hlo & Hhi);
    [done|done|].
  right. exists q. split; [done|]. lra.
Qed.

Lemma loss_column_of_rise close :
  never_falls close → Forall (nan_or 0) (avg_loss close).
Proof.
  intros H. unfold avg_loss. apply rolling_mean_flat.
  destruct close as [|c cs]; [exact (List.Forall_nil _)|].
  rewrite diff_steps.
  change (map fneg (clip_upper (Fin 0) (NaN :: steps c cs)))
    with (NaN :: map fneg (clip_upper (Fin 0) (steps c cs))).
  constructor; [by left|].
  destruct c as [| |p|]; try done. simpl in H.
  unfold clip_upper. rewrite map_map. apply Forall_map.
  eapply Forall_impl; [by apply steps_climb|]. apply loss_of_rise.
Qed.

Lemma rsi_row_flat g l : nan_or 0 l → rsi_row g l = Fin 50.
Proof.
  intros [->|(q & -> & Hq)].
  - unfold rsi_row. simpl. by destruct g.
  - apply rsi_row_flat_loss. simpl. by apply Qeq_bool_iff.
Qed.

Lemma zip_with_rsi_flat gains losses :
  length gains = length losses → Forall (nan_or 0) losses →
  zip_with rsi_row gains losses = repeat (Fin 50) (length losses).
Proof.
  intros Hlen Hl. revert gains Hlen.
  induction Hl as [|l losses Hl _ IH]; intros [|g gains] Hlen; try done.
  simpl. rewrite (rsi_row_flat g l Hl). f_equal. apply IH.
  simpl in Hlen. lia.
Qed.

(** X18. On a series of closes that never falls (steady or rising
    throughout), the average loss is zero on every row, so the RSI column
    that [calculate_indicators] returns reads 50 on every row, however
    strong the rise. *)
Theorem rsi_is_50_when_price_never_falls
    (df : DataFrame) (spy_df : option DataFrame) (close : list fl) :
  columns df !! "Close" = Some close →
  never_falls close →
  ∃ out,
    calculate_indicators df spy_df = Some out
    ∧ columns out !! "RSI" = Some (repeat (Fin 50) (length close)).
Proof.
  intros Hclose Hup.
  destruct (calculate_indicators_rsi df spy_df close Hclose)
    as (out & Hout & _ & Hrsi & _).
  exists out. split; [done|]. rewrite Hrsi. f_equal.
  rewrite rsi_column_rows, zip_with_rsi_flat.
  - by rewrite length_avg_loss.
  - by rewrite length_avg_gain, length_avg_loss.
  - by apply loss_column_of_rise.
Qed.

Lemma rsi_is_50_when_price_never_falls_witness :
  ∃ out,
    calculate_indicators (bars 0 30) None = Some out
    ∧ columns out !! "RSI" = Some (repeat (Fin 50) 30).
Proof.
  refine (rsi_is_50_when_price_never_falls (bars 0 30) None
            (repeat (Fin 100) 30) _ _).
  - vm_compute. reflexivity.
  - vm_compute. intuition discriminate.
Defined.

(** *** A series that never rises *)







End RsiMore.

(* ===================================================================== *)
(** ** Properties of the series of [MarketMonitorLivev6.py] *)
(* ===================================================================== *)

Module MonitorFacts.
Import Sector Monitor.

Lemma elem_of_insert_row row r s :
  row ∈ insert_row r s ↔ row = r ∨ row ∈ s.
Proof.
  induction s as [|r' tl IH]; simpl.
  - rewrite list_elem_of_singleton, elem_of_nil. tauto.
  - destruct (fst r <=? fst r'); rewrite !elem_of_cons; [tauto|].
    rewrite IH. tauto.
Qed.

Lemma elem_of_sort_index row s : row ∈ sort_index s ↔ row ∈ s.
Proof.
  induction s as [|r tl IH]; [done|]. unfold sort_index. simpl.
  rewrite elem_of_insert_row, elem_of_cons. fold (sort_index tl).
  by rewrite IH.
Qed.

Lemma labels_of_sort_index t s : t ∈ (sort_index s).*1 ↔ t ∈ s.*1.
Proof.
  rewrite !list_elem_of_fmap.
  split; intros (row & -> & Hrow); exists row;
    (split; [done|]); by apply elem_of_sort_index.
Qed.

Lemma insert_row_increasing p r s :
  increasing_from p s.*1 → p < fst r → fst r ∉ s.*1 →
  increasing_from p (insert_row r s).*1.
Proof.
  revert p. induction s as [|r' tl IH]; intros p Hs Hp Hr; simpl.
  - done.
  - destruct Hs as [Hp' Hs]. apply not_elem_of_cons in Hr as [Hne Hr].
    destruct (Z.leb_spec (fst r) (fst r')) as [Hle|Hlt]; simpl.
    + split_and!; [done|lia|done].
    + split; [done|]. apply IH; [done|lia|done].
Qed.

Lemma increasing_from_weaken p q l :
  increasing_from p l → q <= p → increasing_from q l.
Proof. destruct l as [|t tl]; [done|]. simpl. intros [H1 H2] Hq. split; [lia|done]. Qed.

Lemma insert_row_sorted r s :
  increasing s.*1 → fst r ∉ s.*1 → increasing (insert_row r s).*1.
Proof.
  destruct s as [|r' tl]; [done|]. intros Hs Hr.
  apply not_elem_of_cons in Hr as [Hne Hr]. simpl in *.
  destruct (Z.leb_spec (fst r) (fst r')) as [Hle|Hlt]; simpl.
  - split; [lia|done].
  - apply insert_row_increasing; [done|lia|done].
Qed.

Lemma sort_index_increasing s :
  NoDup s.*1 → increasing (sort_index s).*1.
Proof.
  induction s as [|r tl IH]; [done|]. intros Hnd.
  apply NoDup_cons in Hnd as [Hr Hnd]. unfold sort_index. simpl.
  fold (sort_index tl). apply insert_row_sorted; [by apply IH|].
  by rewrite labels_of_sort_index.
Qed.

Lemma keep_last_subset row s : row ∈ keep_last s → row ∈ s.
Proof.
  induction s as [|r tl IH]; [done|]. simpl.
  case_bool_decide; rewrite ?elem_of_cons; intuition.
Qed.

Lemma keep_last_labels t s : t ∈ (keep_last s).*1 ↔ t ∈ s.*1.
Proof.
  induction s as [|r tl IH]; [done|]. simpl.
  case_bool_decide as Hdup; simpl; rewrite ?elem_of_cons, IH; [|done].
  split; [auto|]. by intros [->|].
Qed.

Lemma keep_last_NoDup s : NoDup (keep_last s).*1.
Proof.
  induction s as [|r tl IH]; simpl; [constructor|].
  case_bool_decide as Hdup; [done|]. simpl. constructor; [|done].
  by rewrite keep_last_labels.
Qed.

(** A row that survives the removal of duplicates is a daily row, or a
    weekly row whose label no daily row carries. *)
Lemma keep_last_app row w d :
  row ∈ keep_last (w ++ d) →
  row ∈ d ∨ (row ∈ w ∧ fst row ∉ d.*1).
Proof.
  induction w as [|r tl IH]; simpl.
  - intros H. left. by apply keep_last_subset.
  - case_bool_decide as Hdup.
    + intros H. destruct (IH H) as [|[? ?]]; [by left|right].
      split; [by right|done].
    + intros [->|H]%elem_of_cons.
      * right. split; [by left|]. intros Hd. apply Hdup.
        rewrite fmap_app, elem_of_app. by right.
      * destruct (IH H) as [|[? ?]]; [by left|right].
        split; [by right|done].
Qed.

Lemma combined_inv w d out :
  combined w d = Some out → out = sort_index (keep_last (w ++ d)).
Proof.
  unfold combined. destruct w, d; intros H; by inversion H.
Qed.

(** X20. The series [run_analysis] builds from a weekly and a daily
    history has strictly increasing labels (hence no label twice), carries
    exactly the labels of the two histories, and shows for each label
    the daily row when there is one: every row of it is a daily row, or a
    weekly row on a label that no daily row has. *)
Theorem combined_series_prefers_daily (s_weekly s_recent out : series) :
  combined s_weekly s_recent = Some out →
  increasing out.*1
  ∧ (∀ t, t ∈ out.*1 ↔ t ∈ s_weekly.*1 ∨ t ∈ s_recent.*1)
  ∧ (∀ row, row ∈ out →
       row ∈ s_recent ∨ (row ∈ s_weekly ∧ fst row ∉ s_recent.*1)).
Proof.
  intros ->%combined_inv. split_and!.
  - apply sort_index_increasing, keep_last_NoDup.
  - intros t.
    by rewrite labels_of_sort_index, keep_last_labels, fmap_app, elem_of_app.
  - intros row Hrow. apply (proj1 (elem_of_sort_index _ _)) in Hrow.
    exact (keep_last_app row s_weekly s_recent Hrow).
Qed.

Lemma combined_series_prefers_daily_witness :
  increasing [0; 518400; 604800]
  ∧ (∀ t, t ∈ [0; 518400; 604800]
       ↔ t ∈ weekly_bars.*1 ∨ t ∈ daily_bars.*1)
  ∧ (∀ row, row ∈ [(0, Fin 1); (518400, Fin 5); (604800, Fin 3)] →
       row ∈ daily_bars ∨ (row ∈ weekly_bars ∧ fst row ∉ daily_bars.*1)).
Proof.
  refine (combined_series_prefers_daily weekly_bars daily_bars
            [(0, Fin 1); (518400, Fin 5); (604800, Fin 3)] _).
  vm_compute. reflexivity.
Defined.

Lemma elem_of_filter_bool {A} (f : A → bool) (x : A) l :
  x ∈ List.filter f l ↔ x ∈ l ∧ f x = true.
Proof.
  rewrite !list_elem_of_In. apply filter_In.
Qed.

(** The rows of a fetched series are bars of the reply with a close. *)
Lemma fetch_yahoo_data_rows reply row :
  row ∈ fetch_yahoo_data reply →
  isnan (snd row) = false
  ∧ ∃ timestamps quote adjclose closes (i : nat),
      reply = Chart timestamps quote adjclose
      ∧ quote !! "close" = Some closes
      ∧ timestamps !! i = Some (fst row)
      ∧ closes !! i = Some (snd row).
Proof.
  unfold fetch_yahoo_data.
  destruct reply as [| | |ts quote adj]; try by intros ?%elem_of_nil.
  destruct (quote !! "close") as [closes|] eqn:Eq;
    [|by intros ?%elem_of_nil].
  destruct (forallb in_datetime_range ts && (length closes =? length ts)%nat);
    [|by intros ?%elem_of_nil].
  intros [Hrow Hv]%elem_of_filter_bool. split.
  { unfold notna in Hv. by apply negb_true_iff in Hv. }
  apply list_elem_of_lookup in Hrow as [i Hi].
  apply lookup_zip_with_Some in Hi as (t & v & -> & Ht & Hc).
  by exists ts, quote, adj, closes, i.
Qed.

Lemma sort_index_nonempty s : s ≠ [] → sort_index s ≠ [].
Proof.
  destruct s as [|r tl]; [done|]. intros _ E.
  assert (r ∈ sort_index (r :: tl)) as Hin
    by (apply elem_of_sort_index; by left).
  rewrite E in Hin. by apply elem_of_nil in Hin.
Qed.

Lemma keep_last_nonempty s : s ≠ [] → keep_last s ≠ [].
Proof.
  destruct s as [|r tl]; [done|]. intros _ E.
  assert (fst r ∈ (keep_last (r :: tl)).*1) as Hin
    by (apply keep_last_labels; by left).
  rewrite E in Hin. by apply elem_of_nil in Hin.
Qed.

(** X21. Whatever the two replies are (an error, a malformed body, arrays
    of different lengths, bars without a close), the series that
    [run_analysis] builds from the two fetches, when it keeps the symbol,
    is not empty and every row of it is a bar of one of the two replies
    with a close that is not NaN. *)
Theorem monitor_series_holds_only_real_bars
    (weekly_reply daily_reply : response) (out : series) :
  combined (fetch_yahoo_data weekly_reply) (fetch_yahoo_data daily_reply)
    = Some out →
  out ≠ []
  ∧ ∀ row, row ∈ out →
      isnan (snd row) = false
      ∧ ∃ reply timestamps quote adjclose closes (i : nat),
          (reply = weekly_reply ∨ reply = daily_reply)
          ∧ reply = Chart timestamps quote adjclose
          ∧ quote !! "close" = Some closes
          ∧ timestamps !! i = Some (fst row)
          ∧ closes !! i = Some (snd row).
Proof.
  intros H. pose proof (combined_inv _ _ _ H) as ->. split.
  - apply sort_index_nonempty, keep_last_nonempty.
    unfold combined in H.
    destruct (fetch_yahoo_data weekly_reply), (fetch_yahoo_data daily_reply);
      done.
  - intros row Hrow. apply (proj1 (elem_of_sort_index _ _)) in Hrow.
    apply keep_last_subset in Hrow.
    apply elem_of_app in Hrow as [Hrow|Hrow];
      destruct (fetch_yahoo_data_rows _ _ Hrow)
        as (Hv & ts & quote & adj & closes & i & Hr & Hq & Ht & Hc);
      (split; [done|]).
    + exists weekly_reply, ts, quote, adj, closes, i. auto.
    + exists daily_reply, ts, quote, adj, closes, i. auto.
Qed.

Lemma monitor_series_holds_only_real_bars_witness :
  [(0, Fin 1); (172800, Fin 3)] ≠ []
  ∧ ∀ row, row ∈ [(0, Fin 1); (172800, Fin 3)] →
      isnan (snd row) = false
      ∧ ∃ reply timestamps quote adjclose closes (i : nat),
          (reply = gappy_chart ∨ reply = HttpError)
          ∧ reply = Chart timestamps quote adjclose
          ∧ quote !! "close" = Some closes
          ∧ timestamps !! i = Some (fst row)
          ∧ closes !! i = Some (snd row).
Proof.
  refine (monitor_series_holds_only_real_bars gappy_chart HttpError
            [(0, Fin 1); (172800, Fin 3)] _).
  vm_compute. reflexivity.
Defined.

End MonitorFacts.
